(** * pyss.testing: the statechart tester harness

    A shallow embedding of [pyss/testing.py]: the classes [StateChartTester]
    and [TesterConfiguration].  Simulators and evaluators are Python objects
    that the harness only holds references to, so they live in a heap indexed
    by locations; every method is a heap transformer that may return, raise an
    exception, or (in the model only) touch a location holding no object.
    Each outcome also carries the list of calls made on simulator objects. *)

From stdpp Require Import base gmap list strings.
From Stdlib Require Import ZArith.

Local Open Scope Z_scope.

(** ** Data of [pyss.model] and [pyss.simulator] used by the harness *)

Definition loc := positive.

(** Modelled from the spec: [model.StateChart]; the harness only reads its
    [name] (for diagnostics) and hands the object to simulator factories. *)
Record StateChart := mkStateChart { sc_name : string }.

(** Modelled from the spec: [model.Event], a named signal with a payload. *)
Record Event := mkEvent { event_name : string; event_data : list (string * string) }.

(** Modelled from the spec: the transition of a step; only its triggering
    event (optional) is read by the harness. *)
Record Transition := mkTransition { tr_event : option Event }.

(** Modelled from the spec: [simulator.MacroStep], the outcome of one step. *)
Record MacroStep := mkMacroStep {
  event : option Event;
  transition : option Transition;
  entered_states : list string;
  exited_states : list string
}.

(** The argument of a predicate of the context: a string or Python's [None]. *)
Abbreviation PyName := (option string).

(** Values stored under a key of an evaluator's context.  The five lambdas of
    [_create_context] are closures: each constructor is one lambda together
    with the variables it captured.  [VContext] is a reference to the context
    dictionary of an evaluator. *)
Inductive Value :=
| VEntered (step : option MacroStep)
| VExited (step : option MacroStep)
| VActive (simulator : loc)
| VProcessed (processed_event_name : PyName)
| VConsumed (consumed_event_name : PyName)
| VContext (evaluator : loc)
| VData (payload : string).

(** Python exceptions: [AssertionError] with its [args], and all the others. *)
Inductive exn :=
| AssertionError (args : list string)
| OtherError (kind : string) (args : list string).

(** Calls made on a simulator object, in the order they are made. *)
Inductive Call :=
| CallSend (target : loc) (e : Event)
| CallSetContext (target : loc) (key : string) (value : Value)
| CallExecute (target : loc)
| CallExecuteOnce (target : loc) (result : option MacroStep).

Definition call_target (c : Call) : loc :=
  match c with
  | CallSend l _ | CallSetContext l _ _ | CallExecute l | CallExecuteOnce l _ => l
  end.

(** ** The heap of simulator and evaluator objects *)

(** A [simulator.Simulator] instance: its statechart, a reference to its
    evaluator and its internal state [Sim]. *)
Record Engine (Sim : Type) := mkEngine {
  _statechart : StateChart;
  evaluator : loc;
  core : Sim
}.
Arguments mkEngine {Sim}.
Arguments _statechart {Sim}.
Arguments evaluator {Sim}.
Arguments core {Sim}.

Record Heap (Sim : Type) := mkHeap {
  engines : gmap loc (Engine Sim);
  evaluators : gmap loc (gmap string Value)
}.
Arguments mkHeap {Sim}.
Arguments engines {Sim}.
Arguments evaluators {Sim}.

(** Modelled from the spec: the interface of [simulator.Simulator] consumed by
    the harness ([send], [execute_once], [execute], [configuration],
    [running]) and the state of a newly constructed instance.  A method sees
    the heap it runs in (the closures of its context read other objects) and
    updates its own state and the context of its evaluator. *)
Class Simulator (Sim : Type) := {
  sim_new : StateChart → Sim;
  sim_send : Event → Sim → Sim;
  sim_execute_once :
    Heap Sim → Sim → gmap string Value → Sim * gmap string Value * (exn + option MacroStep);
  sim_execute :
    Heap Sim → Sim → gmap string Value → Sim * gmap string Value * (exn + list MacroStep);
  sim_configuration : Sim → list string;
  sim_running : Sim → bool
}.

(** Python's [str()] of the values that the messages embed. *)
Class Formatter := {
  str_args : list string → string;
  str_configuration : list string → string;
  str_macrostep : MacroStep → string
}.

(** ** Outcomes and the monad of harness methods *)

Inductive Outcome (Sim A : Type) :=
| Ok (a : A) (h : Heap Sim) (tr : list Call)
| Raise (e : exn) (h : Heap Sim) (tr : list Call)
| Stuck
| OutOfFuel.
Arguments Ok {Sim A}.
Arguments Raise {Sim A}.
Arguments Stuck {Sim A}.
Arguments OutOfFuel {Sim A}.

Definition M (Sim A : Type) : Type := Heap Sim → Outcome Sim A.

Definition prepend {Sim A} (tr0 : list Call) (o : Outcome Sim A) : Outcome Sim A :=
  match o with
  | Ok a h tr => Ok a h (tr0 ++ tr)
  | Raise e h tr => Raise e h (tr0 ++ tr)
  | Stuck => Stuck
  | OutOfFuel => OutOfFuel
  end.

Definition ret {Sim A} (a : A) : M Sim A := λ h, Ok a h [].

Definition bind {Sim A B} (m : M Sim A) (k : A → M Sim B) : M Sim B :=
  λ h, match m h with
       | Ok a h1 tr1 => prepend tr1 (k a h1)
       | Raise e h1 tr1 => Raise e h1 tr1
       | Stuck => Stuck
       | OutOfFuel => OutOfFuel
       end.

Definition raise {Sim A} (e : exn) : M Sim A := λ h, Raise e h [].

(** [try: m except Exception as e: handler e] *)
Definition try_except {Sim A} (m : M Sim A) (handler : exn → M Sim A) : M Sim A :=
  λ h, match m h with
       | Raise e h1 tr1 => prepend tr1 (handler e h1)
       | o => o
       end.

Declare Scope py_scope.
Delimit Scope py_scope with py.
Notation "x <- m ;; k" := (bind m (λ x, k))
  (at level 100, m at next level, right associativity) : py_scope.
Notation "m ;; k" := (bind m (λ _, k))
  (at level 100, right associativity) : py_scope.
Local Open Scope py_scope.

(** [for x in l: body x] *)
Fixpoint for_each {Sim A} (l : list A) (body : A → M Sim unit) : M Sim unit :=
  match l with
  | [] => ret tt
  | x :: xs => body x ;; for_each xs body
  end.

(** ** The class [StateChartTester] *)

Record StateChartTester := mkStateChartTester {
  _simulator : loc;
  _testers : list loc;
  _events : list Event
}.

(** A context as [_create_context] returns it: a dictionary literal, whose
    items are visited in the order they are written. *)
Abbreviation Context := (list (string * Value)).

Fixpoint dict_get (key : string) (d : Context) : option Value :=
  match d with
  | [] => None
  | (k, v) :: d' => if bool_decide (k = key) then Some v else dict_get key d'
  end.

(** [s in l] for a list of names. *)
Definition py_in (s : PyName) (l : list string) : bool :=
  match s with
  | Some x => bool_decide (x ∈ l)
  | None => false
  end.

Definition nl : string := String (Ascii.ascii_of_nat 10) EmptyString.
Definition dq : string := String (Ascii.ascii_of_nat 34) EmptyString.

Section Harness.
Context {Sim : Type} `{!Simulator Sim} `{!Formatter}.

(** *** Reading and writing the heap *)

Definition get_engine (l : loc) : M Sim (Engine Sim) :=
  λ h, match engines h !! l with
       | Some eng => Ok eng h []
       | None => Stuck
       end.

Definition get_context (ev : loc) : M Sim (gmap string Value) :=
  λ h, match evaluators h !! ev with
       | Some ctx => Ok ctx h []
       | None => Stuck
       end.

Definition set_core (l : loc) (c : Sim) : M Sim unit :=
  λ h, match engines h !! l with
       | Some eng =>
           Ok tt (mkHeap (<[l := mkEngine (_statechart eng) (evaluator eng) c]> (engines h))
                         (evaluators h)) []
       | None => Stuck
       end.

Definition put_context (ev : loc) (ctx : gmap string Value) : M Sim unit :=
  λ h, Ok tt (mkHeap (engines h) (<[ev := ctx]> (evaluators h))) [].

Definition get_heap : M Sim (Heap Sim) := λ h, Ok h h [].

Definition emit (c : Call) : M Sim unit := λ h, Ok tt h [c].

(** *** Methods and attributes of a simulator object *)

(** [target.send(e)] *)
Definition Simulator_send (target : loc) (e : Event) : M Sim unit :=
  eng <- get_engine target ;;
  set_core target (sim_send e (core eng)) ;;
  emit (CallSend target e).

(** [target.evaluator._context[key] = value] *)
Definition Simulator_set_context (target : loc) (key : string) (value : Value) : M Sim unit :=
  eng <- get_engine target ;;
  ctx <- get_context (evaluator eng) ;;
  put_context (evaluator eng) (<[key := value]> ctx) ;;
  emit (CallSetContext target key value).

(** [target.execute()] *)
Definition Simulator_execute (target : loc) : M Sim (list MacroStep) :=
  eng <- get_engine target ;;
  ctx <- get_context (evaluator eng) ;;
  h <- get_heap ;;
  let '(c', ctx', r) := sim_execute h (core eng) ctx in
  set_core target c' ;;
  put_context (evaluator eng) ctx' ;;
  emit (CallExecute target) ;;
  match r with
  | inl e => raise e
  | inr steps => ret steps
  end.

(** [target.execute_once()] *)
Definition Simulator_execute_once (target : loc) : M Sim (option MacroStep) :=
  eng <- get_engine target ;;
  ctx <- get_context (evaluator eng) ;;
  h <- get_heap ;;
  let '(c', ctx', r) := sim_execute_once h (core eng) ctx in
  set_core target c' ;;
  put_context (evaluator eng) ctx' ;;
  match r with
  | inl e => raise e
  | inr step => emit (CallExecuteOnce target step) ;; ret step
  end.

(** [target.configuration], [target.running], [target._statechart.name] *)
Definition Simulator_configuration (target : loc) : M Sim (list string) :=
  eng <- get_engine target ;; ret (sim_configuration (core eng)).

Definition Simulator_running (target : loc) : M Sim bool :=
  eng <- get_engine target ;; ret (sim_running (core eng)).

Definition Simulator_name (target : loc) : M Sim string :=
  eng <- get_engine target ;; ret (sc_name (_statechart eng)).

(** *** Calling the values of a context *)

(** The bodies of the five lambdas of [_create_context], run in heap [h]. *)
Definition call_value (h : Heap Sim) (f : Value) (arg : PyName) : option bool :=
  match f with
  | VEntered step => Some (py_in arg (from_option entered_states [] step))
  | VExited step => Some (py_in arg (from_option exited_states [] step))
  | VActive simulator =>
      eng ← engines h !! simulator;
      Some (py_in arg (sim_configuration (core eng)))
  | VProcessed processed_event_name => Some (bool_decide (processed_event_name = arg))
  | VConsumed consumed_event_name => Some (bool_decide (consumed_event_name = arg))
  | VContext _ | VData _ => None
  end.

(** The dictionary a [VContext] refers to, in heap [h]. *)
Definition deref_context (h : Heap Sim) (v : Value) : option (gmap string Value) :=
  match v with
  | VContext ev => evaluators h !! ev
  | _ => None
  end.

(** [context[key](arg)] evaluated in heap [h]. *)
Definition ask (h : Heap Sim) (context : Context) (key : string) (arg : PyName) : option bool :=
  f ← dict_get key context; call_value h f arg.

(** *** [StateChartTester._create_context] *)

Definition _create_context (self : StateChartTester) (step : option MacroStep) : M Sim Context :=
  let processed_event_name := event_name <$> ((step ≫= transition) ≫= tr_event) in
  let consumed_event_name := event_name <$> (step ≫= event) in
  simulator <- get_engine (_simulator self) ;;
  ret [ ("entered", VEntered step);
        ("exited", VExited step);
        ("active", VActive (_simulator self));
        ("processed", VProcessed processed_event_name);
        ("consumed", VConsumed consumed_event_name);
        ("context", VContext (evaluator simulator)) ].

(** *** [StateChartTester._execute_tester] *)

Definition str_step (step : option MacroStep) : string :=
  match step with
  | Some st => str_macrostep st
  | None => "None"
  end.

(** The message built by the [except AssertionError] clause. *)
Definition failure_message (self : StateChartTester) (tester : loc)
    (args : list string) (step : option MacroStep) : M Sim string :=
  simulator_name <- Simulator_name (_simulator self) ;;
  tester_name <- Simulator_name tester ;;
  tester_configuration <- Simulator_configuration tester ;;
  simulator_configuration <- Simulator_configuration (_simulator self) ;;
  ret ("An AssertionError occurred while testing " +:+ dq +:+ simulator_name +:+ dq +:+ "." +:+ nl
       +:+ "Test statechart " +:+ dq +:+ tester_name +:+ dq +:+ " returned:" +:+ nl
       +:+ str_args args +:+ nl +:+ nl
       +:+ "Tester active configuration: " +:+ str_configuration tester_configuration +:+ nl
       +:+ "Active configuration: " +:+ str_configuration simulator_configuration +:+ nl
       +:+ "Step: " +:+ str_step step).

(** The body of the loop of [_execute_tester], for one tester. *)
Definition relay_to (self : StateChartTester) (step : option MacroStep) (e : Event)
    (context : Context) (tester : loc) : M Sim unit :=
  Simulator_send tester e ;;
  for_each context (λ '(key, value), Simulator_set_context tester key value) ;;
  try_except (Simulator_execute tester ;; ret tt)
    (λ err, match err with
            | AssertionError args =>
                msg <- failure_message self tester args step ;;
                raise (AssertionError [msg])
            | _ => raise err
            end).

Definition _execute_tester (self : StateChartTester) (step : option MacroStep) (e : Event)
    (context : Context) : M Sim unit :=
  for_each (_testers self) (relay_to self step e context).

(** *** [StateChartTester.stop] *)

Definition not_final_message (tester_name : string) (configuration : list string) : string :=
  dq +:+ tester_name +:+ dq +:+ " is not in a final configuration!" +:+ nl
  +:+ "Configuration: " +:+ str_configuration configuration.

Definition stop (self : StateChartTester) : M Sim unit :=
  let e := mkEvent "stop" [] in
  context <- _create_context self None ;;
  for_each (_testers self) (λ tester,
    _execute_tester self None e context ;;
    running <- Simulator_running tester ;;
    if running then
      tester_name <- Simulator_name tester ;;
      configuration <- Simulator_configuration tester ;;
      raise (AssertionError [not_final_message tester_name configuration])
    else ret tt).

(** *** [StateChartTester.execute_once] *)

Definition execute_once (self : StateChartTester) : M Sim (option MacroStep) :=
  step <- Simulator_execute_once (_simulator self) ;;
  match step with
  | Some st =>
      let e := mkEvent "step" [] in
      context <- _create_context self step ;;
      _execute_tester self step e context
  | None => stop self
  end ;;
  ret step.

(** *** [StateChartTester.execute] *)

(** The [while step:] loop; [fuel] bounds the number of further calls of
    [execute_once]. *)
Fixpoint execute_loop (fuel : nat) (self : StateChartTester) (max_steps : Z)
    (steps : list MacroStep) (i : Z) (step : option MacroStep) : M Sim (list MacroStep) :=
  match step with
  | None => ret steps
  | Some st =>
      let steps := steps ++ [st] in
      let i := i + 1 in
      if (0 <? max_steps) && (i =? max_steps) then ret steps
      else match fuel with
           | O => λ _, OutOfFuel
           | S fuel' =>
               step' <- execute_once self ;;
               execute_loop fuel' self max_steps steps i step'
           end
  end.

Definition execute (fuel : nat) (self : StateChartTester) (max_steps : Z) : M Sim (list MacroStep) :=
  step <- execute_once self ;;
  execute_loop fuel self max_steps [] 0 step.

(** *** [StateChartTester.__init__] *)

Definition StateChartTester__init__ (simulator : loc) (testers : list loc)
    (events : list Event) : M Sim StateChartTester :=
  let self := mkStateChartTester simulator testers events in
  let e := mkEvent "start" [] in
  context <- _create_context self None ;;
  _execute_tester self None e context ;;
  for_each (_events self) (λ ev, Simulator_send (_simulator self) ev) ;;
  ret self.

End Harness.

(** ** The class [TesterConfiguration] *)

(** A [simulator_class]: a callable taking a statechart and an (optional)
    evaluator and returning a simulator object. *)
Abbreviation SimulatorClass Sim := (StateChart → option loc → M Sim loc).

Module TesterConfiguration.

Record t (Sim : Type) := mk {
  _statechart : StateChart;
  _evaluator : option loc;
  _simulator_class : option (SimulatorClass Sim);
  _statechart_tests : list (StateChart * option loc * option (SimulatorClass Sim))
}.
Arguments mk {Sim}.
Arguments _statechart {Sim}.
Arguments _evaluator {Sim}.
Arguments _simulator_class {Sim}.
Arguments _statechart_tests {Sim}.

Section Methods.
Context {Sim : Type} `{!Simulator Sim} `{!Formatter}.

(** Modelled from the spec: the default constructor
    [Simulator(statechart, evaluator)], absent from the sources.  It returns a
    new simulator object that keeps the evaluator it is given, or makes a new
    default evaluator (with an empty context) when it is given none. *)
Definition Simulator__init__ : SimulatorClass Sim :=
  λ statechart evaluator h,
    let ev := from_option id (fresh (dom (evaluators h))) evaluator in
    let evs := match evaluator with
               | Some _ => evaluators h
               | None => <[ev := ∅]> (evaluators h)
               end in
    let l := fresh (dom (engines h)) in
    Ok l (mkHeap (<[l := mkEngine statechart ev (sim_new statechart)]> (engines h)) evs) [].

Definition __init__ (statechart : StateChart) (evaluator : option loc)
    (simulator_class : option (SimulatorClass Sim)) : t Sim :=
  mk statechart evaluator simulator_class [].

(** Methods take [self] and give back [self] as they leave it. *)
Definition add_test (self : t Sim) (statechart : StateChart) (evaluator : option loc)
    (simulator_class : option (SimulatorClass Sim)) : t Sim :=
  mk (_statechart self) (_evaluator self) (_simulator_class self)
     (_statechart_tests self ++ [(statechart, evaluator, simulator_class)]).

(** [simulator_class(statechart, evaluator)] or, with no class,
    [Simulator(statechart, evaluator)]. *)
Definition instantiate (simulator_class : option (SimulatorClass Sim))
    (statechart : StateChart) (evaluator : option loc) : M Sim loc :=
  match simulator_class with
  | Some cls => cls statechart evaluator
  | None => Simulator__init__ statechart evaluator
  end.

(** The loop of [build_tester] that fills [testers]. *)
Fixpoint build_testers (tests : list (StateChart * option loc * option (SimulatorClass Sim)))
    (testers : list loc) : M Sim (list loc) :=
  match tests with
  | [] => ret testers
  | (statechart, evaluator, simulator_class) :: tests' =>
      tester <- instantiate simulator_class statechart evaluator ;;
      build_testers tests' (testers ++ [tester])
  end.

Definition build_tester (self : t Sim) (events : list Event) : M Sim (t Sim * StateChartTester) :=
  simulator <- instantiate (_simulator_class self) (_statechart self) (_evaluator self) ;;
  testers <- build_testers (_statechart_tests self) [] ;;
  harness <- StateChartTester__init__ simulator testers events ;;
  ret (self, harness).

End Methods.
End TesterConfiguration.

(** ** A scripted simulator class

    A small simulator class used to run the harness on concrete scenarios: it
    keeps the events it was sent, produces the steps of a fixed script, and
    its [execute] raises an [AssertionError] when the last event it was sent
    is one it objects to. *)

Record Scripted := mkScripted {
  inbox : list Event;
  script : list MacroStep;
  objects_to : list string;
  still_running : bool;
  active_states : list string
}.

Definition scripted_send (e : Event) (s : Scripted) : Scripted :=
  mkScripted (inbox s ++ [e]) (script s) (objects_to s) (still_running s) (active_states s).

Definition scripted_execute_once (s : Scripted) : Scripted * option MacroStep :=
  match script s with
  | [] => (s, None)
  | st :: rest =>
      (mkScripted (inbox s) rest (objects_to s) (still_running s)
         (filter (λ x, x ∉ exited_states st) (active_states s) ++ entered_states st),
       Some st)
  end.

Definition scripted_execute (s : Scripted) : exn + list MacroStep :=
  match last (inbox s) with
  | Some e =>
      if bool_decide (event_name e ∈ objects_to s)
      then inl (AssertionError ["unexpected " +:+ event_name e])
      else inr []
  | None => inr []
  end.

#[export] Instance Scripted_Simulator : Simulator Scripted := {
  sim_new _ := mkScripted [] [] [] false [];
  sim_send := scripted_send;
  sim_execute_once _ s ctx := let '(s', r) := scripted_execute_once s in (s', ctx, inr r);
  sim_execute _ s ctx := (s, ctx, scripted_execute s);
  sim_configuration := active_states;
  sim_running := still_running
}.

Definition join (sep : string) (l : list string) : string :=
  foldr (λ x acc, if bool_decide (acc = EmptyString) then x else x +:+ sep +:+ acc) EmptyString l.

#[export] Instance Plain_Formatter : Formatter := {
  str_args l := "(" +:+ join ", " l +:+ ")";
  str_configuration l := "[" +:+ join ", " l +:+ "]";
  str_macrostep st := "MacroStep(" +:+ join ", " (entered_states st) +:+ ")"
}.

(** ** Concrete scenarios

    A subject with states [s1], [s2], [s3] under [root]: it enters [s1], goes
    to [s2] on the event [goto s2], then to [s3] without an event. *)

Definition goto_s2 : Event := mkEvent "goto s2" [].

Definition step_initial : MacroStep := mkMacroStep None None ["root"; "s1"] [].
Definition step_goto_s2 : MacroStep :=
  mkMacroStep (Some goto_s2) (Some (mkTransition (Some goto_s2))) ["s2"] ["s1"].
Definition step_eventless : MacroStep :=
  mkMacroStep None (Some (mkTransition None)) ["s3"] ["s2"].

(** A step whose entered set is {A, B} and whose exited set is {C}. *)
Definition step_AB_C : MacroStep := mkMacroStep None None ["A"; "B"] ["C"].

Definition subject_engine (steps : list MacroStep) : Engine Scripted :=
  mkEngine (mkStateChart "subject") 10%positive (mkScripted [] steps [] false []).

(** A tester with its own evaluator, which objects to the listed events. *)
Definition tester_engine (name : string) (ev : loc) (objects : list string) (running : bool)
    : Engine Scripted :=
  mkEngine (mkStateChart name) ev (mkScripted [] [] objects running ["watching"]).

Definition empty_contexts : gmap loc (gmap string Value) :=
  <[10%positive := ∅]> (<[11%positive := ∅]> (<[12%positive := ∅]> (<[13%positive := ∅]> ∅))).

(** The subject at location 1 and two quiet, final testers at 2 and 3. *)
Definition two_testers_heap (steps : list MacroStep) : Heap Scripted :=
  mkHeap (<[1%positive := subject_engine steps]>
          (<[2%positive := tester_engine "t1" 11%positive [] false]>
           (<[3%positive := tester_engine "t2" 12%positive [] false]> ∅)))
         empty_contexts.

Definition two_testers_harness : StateChartTester :=
  mkStateChartTester 1%positive [2%positive; 3%positive] [goto_s2].

(** The subject at location 1 and three testers at 2, 3 and 4; the second one
    objects to the event [step]. *)
Definition three_testers_heap (steps : list MacroStep) : Heap Scripted :=
  mkHeap (<[1%positive := subject_engine steps]>
          (<[2%positive := tester_engine "t1" 11%positive [] false]>
           (<[3%positive := tester_engine "t2" 12%positive ["step"] false]>
            (<[4%positive := tester_engine "t3" 13%positive [] false]> ∅))))
         empty_contexts.

Definition three_testers_harness : StateChartTester :=
  mkStateChartTester 1%positive [2%positive; 3%positive; 4%positive] [goto_s2].

(** The context of the step [step_goto_s2] of the subject at location 1. *)
Definition goto_s2_context : Context :=
  [ ("entered", VEntered (Some step_goto_s2));
    ("exited", VExited (Some step_goto_s2));
    ("active", VActive 1%positive);
    ("processed", VProcessed (Some "goto s2"));
    ("consumed", VConsumed (Some "goto s2"));
    ("context", VContext 10%positive) ].

(** Five pending steps of the subject. *)
Definition five_steps : list MacroStep :=
  [step_initial; step_goto_s2; step_eventless; step_AB_C; step_AB_C].

(** A configuration with two tests and nothing but defaults. *)
Definition default_configuration : TesterConfiguration.t Scripted :=
  TesterConfiguration.add_test
    (TesterConfiguration.add_test
       (TesterConfiguration.__init__ (mkStateChart "subject") None None)
       (mkStateChart "t1") None None)
    (mkStateChart "t2") None None.

(** A configuration whose test is given the evaluator at location 20. *)
Definition shared_evaluator_configuration : TesterConfiguration.t Scripted :=
  TesterConfiguration.add_test
    (TesterConfiguration.__init__ (mkStateChart "subject") None None)
    (mkStateChart "t1") (Some 20%positive) None.

(** A heap with that evaluator and nothing else. *)
Definition one_evaluator_heap : Heap Scripted := mkHeap ∅ (<[20%positive := ∅]> ∅).

Definition empty_heap : Heap Scripted := mkHeap ∅ ∅.

(** The subject and two testers: the first one is not final, the second one
    objects to the event [stop]. *)
Definition stop_order_heap : Heap Scripted :=
  mkHeap (<[1%positive := subject_engine []]>
          (<[2%positive := tester_engine "t1" 11%positive [] true]>
           (<[3%positive := tester_engine "t2" 12%positive ["stop"] false]> ∅)))
         empty_contexts.

(** A simulator class whose [execute] always fails with an exception that is
    not an [AssertionError]. *)
Inductive Crashing := crashing.

Definition Crashing_Simulator : Simulator Crashing := {|
  sim_new _ := crashing;
  sim_send _ s := s;
  sim_execute_once _ s ctx := (s, ctx, inr None);
  sim_execute _ s ctx := (s, ctx, inl (OtherError "ZeroDivisionError" ["division by zero"]));
  sim_configuration _ := [];
  sim_running _ := false
|}.

(** A subject at location 1 and one tester at location 2, of that class. *)
Definition crashing_heap : Heap Crashing :=
  mkHeap (<[1%positive := mkEngine (mkStateChart "subject") 10%positive crashing]>
          (<[2%positive := mkEngine (mkStateChart "t1") 11%positive crashing]> ∅))
         (<[10%positive := ∅]> (<[11%positive := ∅]> ∅)).

Definition crashing_harness : StateChartTester :=
  mkStateChartTester 1%positive [2%positive] [].

(** The subject and a tester whose context already has the keys [consumed]
    and [count]. *)
Definition overlaid_heap : Heap Scripted :=
  mkHeap (<[1%positive := subject_engine []]>
          (<[2%positive := tester_engine "t1" 11%positive [] false]> ∅))
         (<[10%positive := ∅]>
          (<[11%positive := <["consumed" := VConsumed None]> (<["count" := VData "3"]> ∅)]> ∅)).

(** The subject and a single tester that never reaches a final configuration. *)
Definition one_running_tester_heap : Heap Scripted :=
  mkHeap (<[1%positive := subject_engine []]>
          (<[2%positive := tester_engine "t1" 11%positive [] true]> ∅))
         empty_contexts.

Definition one_tester_harness : StateChartTester :=
  mkStateChartTester 1%positive [2%positive] [].

(** A configuration that names the default constructor as the class of its
    statechart and of its second test, and no evaluator. *)
Definition named_class_configuration : TesterConfiguration.t Scripted :=
  TesterConfiguration.add_test
    (TesterConfiguration.add_test
       (TesterConfiguration.__init__ (mkStateChart "subject") None
          (Some TesterConfiguration.Simulator__init__))
       (mkStateChart "t1") None None)
    (mkStateChart "t2") None (Some TesterConfiguration.Simulator__init__).

(** ** Vocabulary of the properties *)

(** [sub] occurs in [s]. *)
Definition includes (sub s : string) : Prop := ∃ before after, s = before +:+ sub +:+ after.

(** The events sent to [target], in order. *)
Definition sends_to (target : loc) (tr : list Call) : list Event :=
  omap (λ c, match c with
             | CallSend l e => if bool_decide (l = target) then Some e else None
             | _ => None
             end) tr.

(** Every event sent in [tr] is [e]. *)
Definition only_sends (e : Event) (tr : list Call) : Prop :=
  ∀ l e', CallSend l e' ∈ tr → e' = e.

(** The heap and the calls a run ended with ([h] when it did not end). *)
Definition outcome_heap {Sim A} (o : Outcome Sim A) (h : Heap Sim) : Heap Sim :=
  match o with
  | Ok _ h' _ | Raise _ h' _ => h'
  | Stuck | OutOfFuel => h
  end.

Definition outcome_trace {Sim A} (o : Outcome Sim A) : list Call :=
  match o with
  | Ok _ _ tr | Raise _ _ tr => tr
  | Stuck | OutOfFuel => []
  end.

(** The calls of the relay of [e] with [context] to one tester: the event is
    sent, the items of the context are set in order, the tester executes. *)
Definition relay_calls (e : Event) (context : Context) (tester : loc) : list Call :=
  CallSend tester e
  :: map (λ item, CallSetContext tester item.1 item.2) context
  ++ [CallExecute tester].

(** A dictionary after the items of [context] were set in it, in order. *)
Definition overlay (ctx : gmap string Value) (context : Context) : gmap string Value :=
  foldl (λ m item, <[item.1 := item.2]> m) ctx context.

(** A call that a relay makes on one of the testers [T]. *)
Definition relay_call (T : list loc) (c : Call) : Prop :=
  call_target c ∈ T ∧ ∀ l r, c ≠ CallExecuteOnce l r.

(** The calls that running a harness may make: [execute_once] on its
    simulator; on its testers, [send] of the events [step] and [stop], context
    items and [execute]. *)
Definition harness_call (self : StateChartTester) (c : Call) : Prop :=
  match c with
  | CallExecuteOnce l _ => l = _simulator self
  | CallSend l e => l ∈ _testers self ∧ (e = mkEvent "step" [] ∨ e = mkEvent "stop" [])
  | CallSetContext l _ _ | CallExecute l => l ∈ _testers self
  end.

(** Every call of a run satisfies [Q]. *)
Definition traced {Sim} (Q : Call → Prop) (h h' : Heap Sim) (tr : list Call) : Prop :=
  Forall Q tr.

(** The simulator objects a harness refers to. *)
Definition engine_locs (self : StateChartTester) : list loc :=
  _simulator self :: _testers self.

Section Vocabulary.
Context {Sim : Type} `{!Simulator Sim} `{!Formatter}.

(** The evaluators of the simulator objects [ls], in heap [h]. *)
Definition evaluator_locs (h : Heap Sim) (ls : list loc) : list loc :=
  omap (λ l, evaluator <$> engines h !! l) ls.

(** From [h] to [h'] only the simulators [T] and the contexts of their
    evaluators may have changed; no object was removed and no simulator
    changed its statechart or its evaluator. *)
Record touches_only (T : list loc) (h h' : Heap Sim) : Prop := mkTouchesOnly {
  touches_engines : ∀ l, l ∉ T → engines h' !! l = engines h !! l;
  touches_shape : ∀ l,
    (λ eng, (_statechart eng, evaluator eng)) <$> engines h' !! l
    = (λ eng, (_statechart eng, evaluator eng)) <$> engines h !! l;
  touches_evaluators : ∀ ev,
    (∀ l eng, l ∈ T → engines h !! l = Some eng → evaluator eng ≠ ev) →
    evaluators h' !! ev = evaluators h !! ev;
  touches_dom : ∀ ev, is_Some (evaluators h !! ev) → is_Some (evaluators h' !! ev)
}.

(** A run that ends (returning or raising) relates its first heap, its last
    heap and its calls by [R]. *)
Definition respects {A} (R : Heap Sim → Heap Sim → list Call → Prop) (m : M Sim A) : Prop :=
  ∀ h, match m h with
       | Ok _ h' tr | Raise _ h' tr => R h h' tr
       | Stuck | OutOfFuel => True
       end.

Class Composable (R : Heap Sim → Heap Sim → list Call → Prop) : Prop := {
  composable_refl : ∀ h, R h h [];
  composable_trans : ∀ h h1 h2 tr1 tr2, R h h1 tr1 → R h1 h2 tr2 → R h h2 (tr1 ++ tr2)
}.

(** Only the simulators [T] were called or changed, and every event sent was [e]. *)
Definition relays (T : list loc) (e : Event) (h h' : Heap Sim) (tr : list Call) : Prop :=
  touches_only T h h' ∧ Forall (λ c, call_target c ∈ T) tr ∧ only_sends e tr.

(** Only the simulators [T] and the contexts of their evaluators changed. *)
Definition touched (T : list loc) (h h' : Heap Sim) (tr : list Call) : Prop :=
  touches_only T h h'.

(** From [h] to [h'] the simulators [L] were created, each with an
    evaluator of its own that [h] did not have, and every object of [h] is
    as it was. *)
Definition allocated (h : Heap Sim) (L : list loc) (h' : Heap Sim) : Prop :=
  (∀ l, l ∈ L →
     engines h !! l = None ∧
     ∃ eng, engines h' !! l = Some eng ∧
            evaluators h !! evaluator eng = None ∧
            is_Some (evaluators h' !! evaluator eng)) ∧
  (∀ l, is_Some (engines h !! l) → engines h' !! l = engines h !! l) ∧
  (∀ ev, is_Some (evaluators h !! ev) → evaluators h' !! ev = evaluators h !! ev).

(** Two harnesses share no simulator and no evaluator. *)
Definition separate (h : Heap Sim) (HA HB : StateChartTester) : Prop :=
  (∀ l, l ∈ engine_locs HA → l ∉ engine_locs HB) ∧
  (∀ ev, ev ∈ evaluator_locs h (engine_locs HA) → ev ∉ evaluator_locs h (engine_locs HB)).

(** The simulators and evaluators of harness [HB] are in [h'] as in [h]. *)
Definition same_objects (HB : StateChartTester) (h h' : Heap Sim) : Prop :=
  (∀ l, l ∈ engine_locs HB → engines h' !! l = engines h !! l) ∧
  (∀ ev, ev ∈ evaluator_locs h (engine_locs HB) → evaluators h' !! ev = evaluators h !! ev).

(** Whatever [execute] does on harness [HA], from a heap where [HA] and [HB]
    are separate, leaves the objects of [HB] as they were and the two
    harnesses separate. *)
Definition runs_alone (HA HB : StateChartTester) : Prop :=
  ∀ fuel max_steps h, separate h HA HB →
    match execute fuel HA max_steps h with
    | Ok _ h' _ | Raise _ h' _ => same_objects HB h h' ∧ separate h' HA HB
    | Stuck | OutOfFuel => True
    end.

(** A configuration that names no evaluator and no simulator class, so that
    every simulator is made by the default constructor with an evaluator of
    its own. *)
Definition all_default (cfg : TesterConfiguration.t Sim) : Prop :=
  TesterConfiguration._evaluator cfg = None ∧
  TesterConfiguration._simulator_class cfg = None ∧
  Forall (λ test, test.1.2 = None ∧ test.2 = None) (TesterConfiguration._statechart_tests cfg).

(** The simulator class [cls] (the default constructor when there is none),
    called with the evaluator [ev], creates a simulator with an evaluator of
    its own that the heap did not have, and leaves every object of the heap
    as it was. *)
Definition creates_new (cls : option (SimulatorClass Sim)) (ev : option loc) : Prop :=
  ∀ statechart h l h' tr,
    TesterConfiguration.instantiate cls statechart ev h = Ok l h' tr → allocated h [l] h'.

(** Every descriptor of the configuration has such a class and evaluator. *)
Definition all_new (cfg : TesterConfiguration.t Sim) : Prop :=
  creates_new (TesterConfiguration._simulator_class cfg) (TesterConfiguration._evaluator cfg) ∧
  Forall (λ test, creates_new test.2 test.1.2) (TesterConfiguration._statechart_tests cfg).

(** The harness of a build that returned. *)
Definition built (o : Outcome Sim (TesterConfiguration.t Sim * StateChartTester)) :
    option StateChartTester :=
  match o with
  | Ok (_, harness) _ _ => Some harness
  | _ => None
  end.

(** Consecutive calls of [execute_once] that each return a step. *)
Inductive run_steps (self : StateChartTester) :
    Heap Sim → list MacroStep → Heap Sim → list Call → Prop :=
| run_steps_nil h : run_steps self h [] h []
| run_steps_cons h st h1 tr1 steps h2 tr2 :
    execute_once self h = Ok (Some st) h1 tr1 →
    run_steps self h1 steps h2 tr2 →
    run_steps self h (st :: steps) h2 (tr1 ++ tr2).

(** [n] consecutive calls of [execute_once], as long as each returns a step:
    the steps, the last heap and the calls. *)
Fixpoint collect (n : nat) (self : StateChartTester) (h : Heap Sim)
    : option (list MacroStep * Heap Sim * list Call) :=
  match n with
  | O => Some ([], h, [])
  | S n' =>
      match execute_once self h with
      | Ok (Some st) h1 tr1 =>
          match collect n' self h1 with
          | Some (steps, h2, tr2) => Some (st :: steps, h2, tr1 ++ tr2)
          | None => None
          end
      | _ => None
      end
  end.

Definition collected_heap (n : nat) (self : StateChartTester) (h : Heap Sim) : Heap Sim :=
  match collect n self h with
  | Some (_, h', _) => h'
  | None => h
  end.

Definition collected_trace (n : nat) (self : StateChartTester) (h : Heap Sim) : list Call :=
  match collect n self h with
  | Some (_, _, tr) => tr
  | None => []
  end.

End Vocabulary.

(** * Properties *)

(** ** The monad *)

Section MonadFacts.
Context {Sim : Type}.

Lemma prepend_nil {A} (o : Outcome Sim A) : prepend [] o = o.
Proof. by destruct o. Qed.

Lemma prepend_prepend {A} tr1 tr2 (o : Outcome Sim A) :
  prepend tr1 (prepend tr2 o) = prepend (tr1 ++ tr2) o.
Proof. destruct o; simpl; by rewrite ?app_assoc. Qed.

Lemma bind_ok {A B} (m : M Sim A) (k : A → M Sim B) h a h1 tr1 :
  m h = Ok a h1 tr1 → bind m k h = prepend tr1 (k a h1).
Proof. unfold bind. by intros ->. Qed.

Lemma bind_raise {A B} (m : M Sim A) (k : A → M Sim B) h e h1 tr1 :
  m h = Raise e h1 tr1 → bind m k h = Raise e h1 tr1.
Proof. unfold bind. by intros ->. Qed.

Lemma bind_Ok_inv {A B} (m : M Sim A) (k : A → M Sim B) h b h2 tr :
  bind m k h = Ok b h2 tr →
  ∃ a h1 tr1 tr2, m h = Ok a h1 tr1 ∧ k a h1 = Ok b h2 tr2 ∧ tr = tr1 ++ tr2.
Proof.
  unfold bind. destruct (m h) as [a h1 tr1| | |]; try done.
  destruct (k a h1) as [b' h2' tr2| | |] eqn:Hk; simpl; try done.
  intros [= -> -> <-]. by exists a, h1, tr1, tr2.
Qed.

Lemma bind_Raise_inv {A B} (m : M Sim A) (k : A → M Sim B) h e h2 tr :
  bind m k h = Raise e h2 tr →
  m h = Raise e h2 tr ∨
  ∃ a h1 tr1 tr2, m h = Ok a h1 tr1 ∧ k a h1 = Raise e h2 tr2 ∧ tr = tr1 ++ tr2.
Proof.
  unfold bind. destruct (m h) as [a h1 tr1| | |]; try done; [|intros [= -> -> ->]; by left].
  destruct (k a h1) as [|e' h2' tr2| |] eqn:Hk; simpl; try done.
  intros [= -> -> <-]. right. by exists a, h1, tr1, tr2.
Qed.

Lemma bind_assoc {A B C} (m : M Sim A) (k : A → M Sim B) (k' : B → M Sim C) h :
  bind (bind m k) k' h = bind m (λ a, bind (k a) k') h.
Proof.
  unfold bind. destruct (m h) as [a h1 tr1| | |]; try done.
  destruct (k a h1) as [b h2 tr2| | |]; simpl; try done.
  destruct (k' b h2); simpl; by rewrite ?app_assoc.
Qed.

Lemma bind_ext {A B} (m : M Sim A) (k k' : A → M Sim B) h :
  (∀ a h1, k a h1 = k' a h1) → bind m k h = bind m k' h.
Proof. intros Hk. unfold bind. destruct (m h); try done. by rewrite Hk. Qed.

Lemma for_each_app {A} (l1 l2 : list A) (body : A → M Sim unit) h :
  for_each (l1 ++ l2) body h = bind (for_each l1 body) (λ _, for_each l2 body) h.
Proof.
  revert h. induction l1 as [|x l1 IH]; intros h; simpl.
  - unfold bind, ret. by rewrite prepend_nil.
  - rewrite bind_assoc. apply bind_ext. intros _ h1. apply IH.
Qed.

End MonadFacts.

(** ** The context of a step *)

Section ContextFacts.
Context {Sim : Type} `{!Simulator Sim} `{!Formatter}.

Lemma create_context_eq (self : StateChartTester) step (h : Heap Sim) eng :
  engines h !! _simulator self = Some eng →
  _create_context self step h =
    Ok [ ("entered", VEntered step);
         ("exited", VExited step);
         ("active", VActive (_simulator self));
         ("processed", VProcessed (event_name <$> ((step ≫= transition) ≫= tr_event)));
         ("consumed", VConsumed (event_name <$> (step ≫= event)));
         ("context", VContext (evaluator eng)) ] h [].
Proof. intros Heng. unfold _create_context, bind, get_engine. by rewrite Heng. Qed.

Lemma ask_eq (hq : Heap Sim) (context : Context) key arg f :
  dict_get key context = Some f → ask hq context key arg = call_value hq f arg.
Proof. unfold ask. by intros ->. Qed.

End ContextFacts.

Section ContextClaims.
Context {Sim : Type} `{!Simulator Sim} `{!Formatter}.

(** C5: the context built for a step answers [entered(s)] true exactly for the
    names of that step's entered states and [exited(s)] true exactly for the
    names of its exited states, in whatever heap the question is asked; so a
    name entered (or exited) only in an earlier step [prev] is answered
    false by the context of the later step. *)
Theorem step_context_entered_exited (self : StateChartTester) (step : MacroStep)
    (h : Heap Sim) (eng : Engine Sim) :
  engines h !! _simulator self = Some eng →
  ∃ context,
    _create_context self (Some step) h = Ok context h [] ∧
    (∀ (hq : Heap Sim) (s : string),
       ask hq context "entered" (Some s) = Some (bool_decide (s ∈ entered_states step)) ∧
       ask hq context "exited" (Some s) = Some (bool_decide (s ∈ exited_states step))) ∧
    (∀ (prev : MacroStep) (hq : Heap Sim) (s : string),
       (s ∈ entered_states prev → s ∉ entered_states step →
        ask hq context "entered" (Some s) = Some false) ∧
       (s ∈ exited_states prev → s ∉ exited_states step →
        ask hq context "exited" (Some s) = Some false)).
Proof.
  intros Heng. eexists. split; [by apply create_context_eq|].
  split.
  - intros hq s. by split.
  - intros prev hq s. split; intros _ Hnot.
    + erewrite ask_eq; [|reflexivity]. simpl. by rewrite bool_decide_eq_false_2.
    + erewrite ask_eq; [|reflexivity]. simpl. by rewrite bool_decide_eq_false_2.
Qed.

(** C6: a context built with no step answers [entered], [exited], [processed]
    and [consumed] false for every name (a string), while [active] is
    answered from the configuration the simulator has in the heap where the
    question is asked, and [context] is the context dictionary the
    simulator's evaluator has in that heap. *)
Theorem no_step_context_answers (self : StateChartTester) (h : Heap Sim) (eng : Engine Sim) :
  engines h !! _simulator self = Some eng →
  ∃ context,
    _create_context self None h = Ok context h [] ∧
    (∀ (hq : Heap Sim) (n : string),
       ask hq context "entered" (Some n) = Some false ∧
       ask hq context "exited" (Some n) = Some false ∧
       ask hq context "processed" (Some n) = Some false ∧
       ask hq context "consumed" (Some n) = Some false) ∧
    (∀ (hq : Heap Sim) (live : Engine Sim) (s : string),
       engines hq !! _simulator self = Some live →
       ask hq context "active" (Some s)
         = Some (bool_decide (s ∈ sim_configuration (core live)))) ∧
    (∀ hq : Heap Sim,
       dict_get "context" context ≫= deref_context hq = evaluators hq !! evaluator eng).
Proof.
  intros Heng. eexists. split; [by apply create_context_eq|].
  split; [|split].
  - intros hq n. by repeat split.
  - intros hq live s Hlive.
    erewrite ask_eq; [|reflexivity]. simpl. by rewrite Hlive.
  - done.
Qed.

(** C9: [consumed(None)] is true in a context built with no step and in the
    context of a step that consumed no event; [processed(None)] is true in a
    context built with no step and in the context of a step with no
    transition or whose transition has no event. *)
Theorem none_matches_absent_event (self : StateChartTester) (step : option MacroStep)
    (h : Heap Sim) (eng : Engine Sim) :
  engines h !! _simulator self = Some eng →
  ∃ context,
    _create_context self step h = Ok context h [] ∧
    (step = None →
       ∀ hq : Heap Sim, ask hq context "consumed" None = Some true ∧
                        ask hq context "processed" None = Some true) ∧
    (∀ st, step = Some st → event st = None →
       ∀ hq : Heap Sim, ask hq context "consumed" None = Some true) ∧
    (∀ st, step = Some st → transition st ≫= tr_event = None →
       ∀ hq : Heap Sim, ask hq context "processed" None = Some true).
Proof.
  intros Heng. eexists. split; [by apply create_context_eq|].
  split; [|split].
  - by intros ->.
  - intros st -> Hev hq.
    erewrite ask_eq; [|reflexivity]. simpl. by rewrite Hev.
  - intros st -> Htr hq.
    erewrite ask_eq; [|reflexivity]. simpl. by rewrite Htr.
Qed.

End ContextClaims.

(** ** What a relay may change *)

Section Frames.
Context {Sim : Type} `{!Simulator Sim} `{!Formatter}.
Implicit Types (h : Heap Sim) (T : list loc).

Lemma touches_only_refl T h : touches_only T h h.
Proof. by split. Qed.

Lemma touches_only_trans T h h1 h2 :
  touches_only T h h1 → touches_only T h1 h2 → touches_only T h h2.
Proof.
  intros [E1 S1 V1 D1] [E2 S2 V2 D2]. split.
  - intros l Hl. by rewrite E2, E1.
  - intros l. by rewrite S2, S1.
  - intros ev Hev. rewrite V2, V1; [done..|].
    intros l eng1 Hl Hl1 <-. specialize (S1 l). rewrite Hl1 in S1.
    destruct (engines h !! l) as [eng|] eqn:Heng; [|done].
    injection S1 as _ Heq. by eapply Hev.
  - intros ev Hev. by apply D2, D1.
Qed.

Lemma touches_only_mono T T' h h' :
  T ⊆ T' → touches_only T h h' → touches_only T' h h'.
Proof.
  intros Hsub [E S V D]. split; [|done| |done].
  - intros l Hl. apply E. intros Hin. by apply Hl, Hsub.
  - intros ev Hev. apply V. intros l eng Hl. apply Hev. by apply Hsub.
Qed.

Lemma touches_only_set_core T h t eng c :
  engines h !! t = Some eng → t ∈ T →
  touches_only T h
    (mkHeap (<[t := mkEngine (_statechart eng) (evaluator eng) c]> (engines h)) (evaluators h)).
Proof.
  intros Heng Ht. split; simpl; [| |done..].
  - intros l Hl. rewrite lookup_insert_ne; [done|]. by intros ->.
  - intros l. destruct (decide (t = l)) as [<-|Hne].
    + by rewrite lookup_insert_eq, Heng.
    + by rewrite lookup_insert_ne.
Qed.

Lemma touches_only_put_context T h t eng ctx :
  engines h !! t = Some eng → t ∈ T →
  touches_only T h (mkHeap (engines h) (<[evaluator eng := ctx]> (evaluators h))).
Proof.
  intros Heng Ht. split; simpl; [done..| |].
  - intros ev Hev. rewrite lookup_insert_ne; [done|]. by eapply Hev.
  - intros ev Hev. destruct (decide (evaluator eng = ev)) as [<-|Hne].
    + by rewrite lookup_insert_eq.
    + by rewrite lookup_insert_ne.
Qed.

Lemma only_sends_nil e : only_sends e [].
Proof. intros l e' Hin. by apply elem_of_nil in Hin. Qed.

Lemma only_sends_app e tr1 tr2 :
  only_sends e tr1 → only_sends e tr2 → only_sends e (tr1 ++ tr2).
Proof. intros H1 H2 l e' [Hin|Hin]%elem_of_app; eauto. Qed.

#[export] Instance relays_composable T e : Composable (Sim:=Sim) (relays T e).
Proof.
  split.
  - intros h. split; [apply touches_only_refl|]. split; [constructor|apply only_sends_nil].
  - intros h h1 h2 tr1 tr2 (A1 & B1 & C1) (A2 & B2 & C2).
    split; [by eapply touches_only_trans|].
    split; [by apply Forall_app|by apply only_sends_app].
Qed.

Lemma relays_mono T T' e h h' tr :
  T ⊆ T' → relays T e h h' tr → relays T' e h h' tr.
Proof.
  intros Hsub (A & B & C). split; [by eapply touches_only_mono|]. split; [|done].
  eapply Forall_impl; [exact B|]. intros c Hc. by apply Hsub.
Qed.

(** *** The rules of [respects] *)

Section Rules.
Context (R : Heap Sim → Heap Sim → list Call → Prop) `{!Composable R}.

Lemma respects_ret {A} (a : A) : respects R (ret a).
Proof. intros h. apply composable_refl. Qed.

Lemma respects_raise {A} (e : exn) : respects R (raise (A:=A) e).
Proof. intros h. apply composable_refl. Qed.

Lemma respects_bind {A B} (m : M Sim A) (k : A → M Sim B) :
  respects R m → (∀ a, respects R (k a)) → respects R (bind m k).
Proof.
  intros Hm Hk h. specialize (Hm h). unfold bind.
  destruct (m h) as [a h1 tr1| | |]; try done.
  specialize (Hk a h1). destruct (k a h1); simpl; try done; by eapply composable_trans.
Qed.

Lemma respects_try_except {A} (m : M Sim A) (handler : exn → M Sim A) :
  respects R m → (∀ e, respects R (handler e)) → respects R (try_except m handler).
Proof.
  intros Hm Hk h. specialize (Hm h). unfold try_except.
  destruct (m h) as [|e h1 tr1| |]; try done.
  specialize (Hk e h1). destruct (handler e h1); simpl; try done; by eapply composable_trans.
Qed.

Lemma respects_for_each {A} (l : list A) (body : A → M Sim unit) :
  (∀ x, x ∈ l → respects R (body x)) → respects R (for_each l body).
Proof.
  induction l as [|x l IH]; intros Hbody; simpl.
  - apply respects_ret.
  - apply respects_bind.
    + apply Hbody. by left.
    + intros _. apply IH. intros y Hy. apply Hbody. by right.
Qed.

Lemma respects_get_engine l : respects R (get_engine l).
Proof. intros h. unfold get_engine. destruct (engines h !! l); [apply composable_refl|done]. Qed.

Lemma respects_Simulator_name l : respects R (Simulator_name l).
Proof. apply respects_bind; [apply respects_get_engine|intros; apply respects_ret]. Qed.

Lemma respects_Simulator_configuration l : respects R (Simulator_configuration l).
Proof. apply respects_bind; [apply respects_get_engine|intros; apply respects_ret]. Qed.

Lemma respects_Simulator_running l : respects R (Simulator_running l).
Proof. apply respects_bind; [apply respects_get_engine|intros; apply respects_ret]. Qed.

Lemma respects_failure_message self tester args step :
  respects R (failure_message self tester args step).
Proof.
  unfold failure_message.
  repeat (apply respects_bind; [first [apply respects_Simulator_name
                                      |apply respects_Simulator_configuration]|intros ?]).
  apply respects_ret.
Qed.

Lemma respects_create_context self step : respects R (_create_context self step).
Proof. apply respects_bind; [apply respects_get_engine|intros; apply respects_ret]. Qed.

End Rules.

(** *** The calls on a simulator object *)

Lemma only_sends_singleton e c :
  (∀ l e', c = CallSend l e' → e' = e) → only_sends e [c].
Proof. intros Hc l e' Hin. apply list_elem_of_singleton in Hin. by eapply Hc. Qed.

Lemma respects_Simulator_send T t e :
  t ∈ T → respects (relays T e) (Simulator_send t e).
Proof.
  intros Ht h. unfold Simulator_send, bind, get_engine, set_core, emit.
  destruct (engines h !! t) as [eng|] eqn:Heng; [|done]. simpl. rewrite Heng. simpl.
  split; [by eapply touches_only_set_core|].
  split; [by repeat constructor|].
  apply only_sends_singleton. by intros l e' [= _ ->].
Qed.

Lemma respects_Simulator_set_context T t e key value :
  t ∈ T → respects (Sim:=Sim) (relays T e) (Simulator_set_context t key value).
Proof.
  intros Ht h. unfold Simulator_set_context, bind, get_engine, get_context, put_context, emit.
  destruct (engines h !! t) as [eng|] eqn:Heng; [|done]. simpl.
  destruct (evaluators h !! evaluator eng) as [ctx|] eqn:Hctx; [|done]. simpl.
  split; [by eapply touches_only_put_context|].
  split; [by repeat constructor|].
  by apply only_sends_singleton.
Qed.

Lemma touches_only_method T h t eng c ctx :
  engines h !! t = Some eng → t ∈ T →
  touches_only T h
    (mkHeap (<[t := mkEngine (_statechart eng) (evaluator eng) c]> (engines h))
            (<[evaluator eng := ctx]> (evaluators h))).
Proof.
  intros Heng Ht.
  pose proof (touches_only_set_core T h t eng c Heng Ht) as Hcore.
  pose proof (touches_only_put_context T
           (mkHeap (<[t := mkEngine (_statechart eng) (evaluator eng) c]> (engines h))
                   (evaluators h))
           t (mkEngine (_statechart eng) (evaluator eng) c) ctx) as Hput.
  simpl in Hput. rewrite lookup_insert_eq in Hput.
  eapply touches_only_trans; [exact Hcore|]. by apply Hput.
Qed.

Lemma respects_Simulator_execute T t e :
  t ∈ T → respects (relays T e) (Simulator_execute t).
Proof.
  intros Ht h.
  unfold Simulator_execute, bind, get_engine, get_context, get_heap, set_core, put_context, emit.
  destruct (engines h !! t) as [eng|] eqn:Heng; [|done]. simpl.
  destruct (evaluators h !! evaluator eng) as [ctx|] eqn:Hctx; [|done]. simpl.
  destruct (sim_execute h (core eng) ctx) as [[c' ctx'] r]. rewrite Heng. simpl.
  assert (relays T e h
            (mkHeap (<[t := mkEngine (_statechart eng) (evaluator eng) c']> (engines h))
                    (<[evaluator eng := ctx']> (evaluators h)))
            [CallExecute t]) as Hrel.
  { split; [by eapply touches_only_method|].
    split; [by repeat constructor|]. by apply only_sends_singleton. }
  by destruct r.
Qed.

Lemma respects_Simulator_execute_once T t e :
  t ∈ T → respects (relays T e) (Simulator_execute_once t).
Proof.
  intros Ht h.
  unfold Simulator_execute_once, bind, get_engine, get_context, get_heap, set_core,
    put_context, emit.
  destruct (engines h !! t) as [eng|] eqn:Heng; [|done]. simpl.
  destruct (evaluators h !! evaluator eng) as [ctx|] eqn:Hctx; [|done]. simpl.
  destruct (sim_execute_once h (core eng) ctx) as [[c' ctx'] r]. rewrite Heng. simpl.
  pose proof (touches_only_method T h t eng c' ctx' Heng Ht) as Hto.
  destruct r as [err|step]; simpl.
  - split; [done|]. split; [constructor|apply only_sends_nil].
  - split; [done|]. split; [by repeat constructor|]. by apply only_sends_singleton.
Qed.

(** *** The relay *)

Lemma respects_relay_to T self step e context t :
  t ∈ T → respects (relays T e) (relay_to self step e context t).
Proof.
  intros Ht. unfold relay_to.
  apply respects_bind; [apply _|by apply respects_Simulator_send|intros _].
  apply respects_bind; [apply _| |intros _].
  - apply respects_for_each; [apply _|]. intros [key value] _.
    by apply respects_Simulator_set_context.
  - apply respects_try_except; [apply _| |].
    + apply respects_bind; [apply _|by apply respects_Simulator_execute|].
      intros _. apply respects_ret, _.
    + intros [args|kind args]; [|apply respects_raise, _].
      apply respects_bind; [apply _|apply respects_failure_message, _|].
      intros msg. apply respects_raise, _.
Qed.

Lemma respects_execute_tester self step e context :
  respects (relays (_testers self) e) (_execute_tester self step e context).
Proof.
  apply respects_for_each; [apply _|]. intros t Ht. by apply respects_relay_to.
Qed.

End Frames.

(** ** Strings *)

Lemma append_cons a s t : String a s +:+ t = String a (s +:+ t).
Proof. reflexivity. Qed.

Lemma append_empty_r s : s +:+ EmptyString = s.
Proof. induction s as [|a s IH]; [done|]. by rewrite append_cons, IH. Qed.

Lemma append_assoc s1 s2 s3 : (s1 +:+ s2) +:+ s3 = s1 +:+ s2 +:+ s3.
Proof. induction s1 as [|a s1 IH]; [done|]. by rewrite !append_cons, IH. Qed.

Lemma includes_refl s : includes s s.
Proof. exists EmptyString, EmptyString. by rewrite append_empty_r. Qed.

Lemma includes_head sub rest : includes sub (sub +:+ rest).
Proof. by exists EmptyString, rest. Qed.

Lemma includes_skip sub p s : includes sub s → includes sub (p +:+ s).
Proof.
  intros (before & after & ->). exists (p +:+ before), after. by rewrite append_assoc.
Qed.

(** ** Assertion failures in a relay *)

Section RelayClaims.
Context {Sim : Type} `{!Simulator Sim} `{!Formatter}.
Implicit Types (h : Heap Sim) (self : StateChartTester).

Lemma failure_message_eq self tester args step h sim_eng t_eng :
  engines h !! _simulator self = Some sim_eng →
  engines h !! tester = Some t_eng →
  failure_message self tester args step h =
    Ok ("An AssertionError occurred while testing " +:+ dq +:+ sc_name (_statechart sim_eng)
          +:+ dq +:+ "." +:+ nl
        +:+ "Test statechart " +:+ dq +:+ sc_name (_statechart t_eng) +:+ dq
          +:+ " returned:" +:+ nl
        +:+ str_args args +:+ nl +:+ nl
        +:+ "Tester active configuration: "
          +:+ str_configuration (sim_configuration (core t_eng)) +:+ nl
        +:+ "Active configuration: "
          +:+ str_configuration (sim_configuration (core sim_eng)) +:+ nl
        +:+ "Step: " +:+ str_step step) h [].
Proof.
  intros Hsim Ht.
  unfold failure_message, Simulator_name, Simulator_configuration, bind, get_engine, ret.
  rewrite Hsim. simpl. rewrite Ht. simpl. rewrite Ht. simpl. rewrite Hsim. simpl.
  done.
Qed.

(** The relay stops at the first tester whose relay raises. *)
Lemma execute_tester_stops_at self step e context pre tester post h h1 tr1 err h2 tr2 :
  _testers self = pre ++ tester :: post →
  for_each pre (relay_to self step e context) h = Ok tt h1 tr1 →
  relay_to self step e context tester h1 = Raise err h2 tr2 →
  _execute_tester self step e context h = Raise err h2 (tr1 ++ tr2).
Proof.
  intros Htesters Hpre Hfail. unfold _execute_tester. rewrite Htesters, for_each_app.
  rewrite (bind_ok _ _ _ _ _ _ Hpre). simpl for_each.
  by rewrite (bind_raise _ _ _ _ _ _ Hfail).
Qed.

(** C3: when, during the relay of an event, the execution of a tester raises
    an [AssertionError], [_execute_tester] raises an [AssertionError] whose
    only argument is a message that includes the name of the subject's
    statechart, the name of the tester's statechart, the original [args], the
    configuration the tester has after its failed execution, the
    configuration of the subject, and the step, which reads [None] for the
    relay of [start] and [stop]. *)
Theorem assertion_failure_is_enriched self step e context pre tester post
    h h1 tr1 h1' tr2 args h2 tr3 sim_eng t_eng :
  _testers self = pre ++ tester :: post →
  for_each pre (relay_to self step e context) h = Ok tt h1 tr1 →
  (Simulator_send tester e ;;
   for_each context (λ '(key, value), Simulator_set_context tester key value)) h1
    = Ok tt h1' tr2 →
  Simulator_execute tester h1' = Raise (AssertionError args) h2 tr3 →
  engines h2 !! _simulator self = Some sim_eng →
  engines h2 !! tester = Some t_eng →
  ∃ msg,
    _execute_tester self step e context h = Raise (AssertionError [msg]) h2 (tr1 ++ tr2 ++ tr3) ∧
    includes (sc_name (_statechart sim_eng)) msg ∧
    includes (sc_name (_statechart t_eng)) msg ∧
    includes (str_args args) msg ∧
    includes (str_configuration (sim_configuration (core t_eng))) msg ∧
    includes (str_configuration (sim_configuration (core sim_eng))) msg ∧
    includes ("Step: " +:+ str_step step) msg ∧
    (step = None → includes "Step: None" msg).
Proof.
  intros Htesters Hpre Hdeliver Hexec Hsim Ht.
  eexists. split.
  - eapply execute_tester_stops_at; [done..|].
    unfold relay_to.
    rewrite <- (bind_assoc (Simulator_send tester e)
                  (λ _, for_each context (λ '(key, value), Simulator_set_context tester key value))).
    rewrite (bind_ok _ _ _ _ _ _ Hdeliver). unfold try_except.
    rewrite (bind_raise _ _ _ _ _ _ Hexec). simpl.
    unfold bind at 1. rewrite (failure_message_eq _ _ _ _ _ _ _ Hsim Ht). simpl.
    by rewrite !app_nil_r.
  - repeat split;
      try (repeat first [apply includes_refl | apply includes_head | apply includes_skip]).
    intros ->. repeat first [apply includes_refl | apply includes_head | apply includes_skip].
Qed.

(** C4: when the relay of an event to tester [k] raises, the testers after it
    in the list play no part in that call of [_execute_tester]: the call
    raises the same exception and ends in the same heap with the same calls
    as those of the relay to the testers up to [k], every call is made on one
    of these, and a later tester that is not also one of them is not sent
    the event, gets no context item and is not executed, its state is
    unchanged, and so is the context of its evaluator unless one of the
    earlier testers uses the same evaluator. *)
Theorem relay_is_fail_fast self step e context pre tester post h h1 tr1 err h2 tr2 :
  _testers self = pre ++ tester :: post →
  for_each pre (relay_to self step e context) h = Ok tt h1 tr1 →
  relay_to self step e context tester h1 = Raise err h2 tr2 →
  _execute_tester self step e context h = Raise err h2 (tr1 ++ tr2) ∧
  Forall (λ c, call_target c ∈ pre ++ [tester]) (tr1 ++ tr2) ∧
  ∀ later, later ∈ post → later ∉ pre ++ [tester] →
    Forall (λ c, call_target c ≠ later) (tr1 ++ tr2) ∧
    sends_to later (tr1 ++ tr2) = [] ∧
    engines h2 !! later = engines h !! later ∧
    ∀ ev, evaluator <$> engines h !! later = Some ev →
      (∀ l eng, l ∈ pre ++ [tester] → engines h !! l = Some eng → evaluator eng ≠ ev) →
      evaluators h2 !! ev = evaluators h !! ev.
Proof.
  intros Htesters Hpre Hfail.
  split; [by eapply execute_tester_stops_at|].
  assert (relays (pre ++ [tester]) e h h2 (tr1 ++ tr2)) as (Hto & Hcalls & _).
  { eapply composable_trans.
    - pose proof (respects_for_each (relays pre e) pre (relay_to self step e context)) as Hr.
      specialize (Hr (λ t Ht, respects_relay_to pre self step e context t Ht) h).
      rewrite Hpre in Hr. eapply relays_mono; [|exact Hr].
      intros x Hx. apply elem_of_app. by left.
    - pose proof (respects_relay_to [tester] self step e context tester) as Hr.
      assert (tester ∈ [tester]) as Hin by apply list_elem_of_here.
      specialize (Hr Hin h1). rewrite Hfail in Hr.
      eapply relays_mono; [|exact Hr].
      intros x Hx. apply elem_of_app. by right. }
  split; [done|].
  intros later Hlater Hnot.
  assert (Forall (λ c, call_target c ≠ later) (tr1 ++ tr2)) as Hnone.
  { eapply Forall_impl; [exact Hcalls|]. intros c Hc Heq. apply Hnot. by rewrite <- Heq. }
  split; [done|]. split; [|split].
  - clear -Hnone. induction Hnone as [|c tr Hc _ IH]; [done|].
    unfold sends_to. simpl. destruct c; try done.
    simpl in Hc. by rewrite bool_decide_eq_false_2.
  - by apply (touches_engines _ _ _ Hto).
  - intros ev _ Hev. by apply (touches_evaluators _ _ _ Hto).
Qed.

End RelayClaims.

(** ** [execute_once] and [execute] *)

Section ExecuteClaims.
Context {Sim : Type} `{!Simulator Sim} `{!Formatter}.
Implicit Types (h : Heap Sim) (self : StateChartTester).

Lemma Simulator_execute_once_Ok t h step h1 tr :
  Simulator_execute_once t h = Ok step h1 tr → tr = [CallExecuteOnce t step].
Proof.
  unfold Simulator_execute_once, bind, get_engine, get_context, get_heap, set_core,
    put_context, emit, ret, raise.
  destruct (engines h !! t) as [eng|] eqn:Heng; [|done]. simpl.
  destruct (evaluators h !! evaluator eng) as [ctx|]; [|done]. simpl.
  destruct (sim_execute_once h (core eng) ctx) as [[c' ctx'] r]. rewrite Heng. simpl.
  destruct r as [err|step']; simpl; [done|]. by intros [= -> _ <-].
Qed.

(** A call of [execute_once] that returns a step relayed [step] and nothing else. *)
Lemma execute_once_Some self h st h' tr :
  execute_once self h = Ok (Some st) h' tr →
  ∃ h1 tr2,
    Simulator_execute_once (_simulator self) h = Ok (Some st) h1
      [CallExecuteOnce (_simulator self) (Some st)] ∧
    (context <- _create_context self (Some st) ;;
     _execute_tester self (Some st) (mkEvent "step" []) context) h1 = Ok tt h' tr2 ∧
    tr = CallExecuteOnce (_simulator self) (Some st) :: tr2.
Proof.
  intros Hrun. unfold execute_once in Hrun.
  apply bind_Ok_inv in Hrun as (step & h1 & tr1 & tr2 & Hsim & Hrest & ->).
  apply bind_Ok_inv in Hrest as ([] & h2 & tr3 & tr4 & Hrelay & Hret & ->).
  injection Hret as -> -> <-.
  pose proof (Simulator_execute_once_Ok _ _ _ _ _ Hsim) as ->.
  exists h1, tr3. by rewrite app_nil_r.
Qed.

(** A call of [execute_once] that returns no step ended with [stop]. *)
Lemma execute_once_None self h h' tr :
  execute_once self h = Ok None h' tr →
  ∃ h1 tr2,
    Simulator_execute_once (_simulator self) h = Ok None h1
      [CallExecuteOnce (_simulator self) None] ∧
    stop self h1 = Ok tt h' tr2 ∧
    tr = CallExecuteOnce (_simulator self) None :: tr2.
Proof.
  intros Hrun. unfold execute_once in Hrun.
  apply bind_Ok_inv in Hrun as (step & h1 & tr1 & tr2 & Hsim & Hrest & ->).
  apply bind_Ok_inv in Hrest as ([] & h2 & tr3 & tr4 & Hrelay & Hret & ->).
  injection Hret as -> -> <-.
  pose proof (Simulator_execute_once_Ok _ _ _ _ _ Hsim) as ->.
  exists h1, tr3. by rewrite app_nil_r.
Qed.

Lemma execute_once_Some_only_sends self h st h' tr :
  execute_once self h = Ok (Some st) h' tr → only_sends (mkEvent "step" []) tr.
Proof.
  intros (h1 & tr2 & _ & Hrelay & ->)%execute_once_Some.
  assert (respects (relays (_testers self) (mkEvent "step" []))
            (context <- _create_context self (Some st) ;;
             _execute_tester self (Some st) (mkEvent "step" []) context)) as Hr.
  { apply respects_bind; [apply _|apply respects_create_context, _|].
    intros context. apply respects_execute_tester. }
  specialize (Hr h1). rewrite Hrelay in Hr. destruct Hr as (_ & _ & Honly).
  intros l e' [Heq|Hin]%elem_of_cons; [done|]. by eapply Honly.
Qed.

Lemma run_steps_only_sends self h steps h' tr :
  run_steps self h steps h' tr → only_sends (mkEvent "step" []) tr.
Proof.
  induction 1 as [|h st h1 tr1 steps h2 tr2 Hstep _ IH]; [apply only_sends_nil|].
  apply only_sends_app; [by eapply execute_once_Some_only_sends|done].
Qed.

Lemma execute_loop_None fuel self max_steps acc i :
  execute_loop fuel self max_steps acc i None = ret acc.
Proof. by destruct fuel. Qed.

Lemma execute_loop_Some fuel self max_steps acc i st :
  execute_loop fuel self max_steps acc i (Some st) =
    if (0 <? max_steps) && (i + 1 =? max_steps) then ret (acc ++ [st])
    else match fuel with
         | O => λ _, OutOfFuel
         | S fuel' =>
             step' <- execute_once self ;;
             execute_loop fuel' self max_steps (acc ++ [st]) (i + 1) step'
         end.
Proof. by destruct fuel. Qed.

Lemma run_steps_nil_inv self h h' tr :
  run_steps self h [] h' tr → h' = h ∧ tr = [].
Proof. by inversion 1. Qed.

Lemma collect_run_steps n self h steps h' tr :
  collect n self h = Some (steps, h', tr) → run_steps self h steps h' tr.
Proof.
  revert h steps h' tr. induction n as [|n IH]; intros h steps h' tr; simpl.
  - intros [= <- <- <-]. constructor.
  - destruct (execute_once self h) as [[st|] h1 tr1| | |] eqn:Honce; try done.
    destruct (collect n self h1) as [[[steps2 h2] tr2]|] eqn:Hrest; [|done].
    intros [= <- <- <-]. econstructor; [done|]. by apply IH.
Qed.

(** The loop, when the bound stops it after the steps of [run_steps]. *)
Lemma execute_loop_bounded self max_steps h steps h' tr :
  run_steps self h steps h' tr →
  ∀ fuel acc i,
    steps ≠ [] → 0 < max_steps → i + Z.of_nat (length steps) = max_steps →
    (length steps ≤ fuel)%nat →
    (step <- execute_once self ;; execute_loop fuel self max_steps acc i step) h
      = Ok (acc ++ steps) h' tr.
Proof.
  induction 1 as [|h st h1 tr1 steps h2 tr2 Hstep Hrun IH];
    intros fuel acc i Hne Hpos Hlen Hfuel; [done|].
  rewrite (bind_ok _ _ _ _ _ _ Hstep). cbn [length] in Hlen, Hfuel.
  rewrite execute_loop_Some.
  destruct steps as [|st' steps'].
  - apply run_steps_nil_inv in Hrun as [-> ->]. cbn [length] in Hlen.
    replace (0 <? max_steps) with true by (symmetry; by apply Z.ltb_lt).
    replace (i + 1 =? max_steps) with true by (symmetry; apply Z.eqb_eq; lia).
    simpl. by rewrite !app_nil_r.
  - cbn [length] in Hlen, Hfuel.
    replace (i + 1 =? max_steps) with false by (symmetry; apply Z.eqb_neq; lia).
    rewrite andb_false_r. destruct fuel as [|fuel]; [lia|].
    rewrite (IH fuel (acc ++ [st]) (i + 1)); [|done|done|cbn [length]; lia|cbn [length]; lia].
    simpl. by rewrite <- app_assoc.
Qed.

(** The loop, when the subject stops after the steps of [run_steps]. *)
Lemma execute_loop_exhausted self max_steps h steps h' tr h'' tr' :
  run_steps self h steps h' tr →
  execute_once self h' = Ok None h'' tr' →
  ∀ fuel acc i,
    max_steps ≤ 0 ∨ i + Z.of_nat (length steps) < max_steps →
    (length steps ≤ fuel)%nat →
    (step <- execute_once self ;; execute_loop fuel self max_steps acc i step) h
      = Ok (acc ++ steps) h'' (tr ++ tr').
Proof.
  intros Hrun Hnone.
  induction Hrun as [|h st h1 tr1 steps h2 tr2 Hstep Hrun IH];
    intros fuel acc i Hbound Hfuel.
  - rewrite (bind_ok _ _ _ _ _ _ Hnone), execute_loop_None. simpl. by rewrite !app_nil_r.
  - rewrite (bind_ok _ _ _ _ _ _ Hstep). cbn [length] in Hbound, Hfuel.
    rewrite execute_loop_Some.
    replace ((0 <? max_steps) && (i + 1 =? max_steps)) with false.
    2:{ symmetry. apply andb_false_iff.
        destruct Hbound; [left; apply Z.ltb_ge|right; apply Z.eqb_neq]; lia. }
    destruct fuel as [|fuel]; [lia|].
    rewrite (IH Hnone fuel (acc ++ [st]) (i + 1)); [|lia|lia].
    simpl. by rewrite <- !app_assoc.
Qed.

(** C7: [execute] calls [execute_once] again and again and collects the steps
    it returns.  When [max_steps] is positive and that many calls have each
    returned a step, it returns these steps at once: the heap and the calls
    are those of these calls of [execute_once], and every event they sent to
    a tester is [step], so [stop] did not run.  When [execute_once] returns no
    step first, it returns the steps collected so far, and that last call of
    [execute_once] ran [stop]. *)
Theorem execute_collects_steps self max_steps h steps h' tr :
  run_steps self h steps h' tr →
  (0 < max_steps → Z.of_nat (length steps) = max_steps →
   ∀ fuel, (length steps ≤ fuel)%nat →
     execute fuel self max_steps h = Ok steps h' tr ∧
     only_sends (mkEvent "step" []) tr) ∧
  (∀ h'' tr', execute_once self h' = Ok None h'' tr' →
   max_steps ≤ 0 ∨ Z.of_nat (length steps) < max_steps →
   ∀ fuel, (length steps ≤ fuel)%nat →
     execute fuel self max_steps h = Ok steps h'' (tr ++ tr') ∧
     ∃ h1 tr_stop,
       stop self h1 = Ok tt h'' tr_stop ∧
       tr' = CallExecuteOnce (_simulator self) None :: tr_stop).
Proof.
  intros Hrun. split.
  - intros Hpos Hlen fuel Hfuel. split; [|by eapply run_steps_only_sends].
    unfold execute. apply (execute_loop_bounded _ _ _ _ _ _ Hrun fuel [] 0); [|done|lia|done].
    intros ->. cbn [length] in Hlen. lia.
  - intros h'' tr' Hnone Hbound fuel Hfuel. split.
    + unfold execute.
      apply (execute_loop_exhausted _ _ _ _ _ _ _ _ Hrun Hnone fuel [] 0); [|done].
      destruct Hbound; [by left|right; lia].
    + apply execute_once_None in Hnone as (h1 & tr2 & _ & Hstop & ->). by exists h1, tr2.
Qed.

End ExecuteClaims.

Section UnboundedExecute.
Context {Sim : Type} `{!Simulator Sim} `{!Formatter}.
Implicit Types (h : Heap Sim) (self : StateChartTester).

Lemma execute_loop_nonpositive self max_steps :
  max_steps ≤ 0 →
  ∀ fuel acc i step h,
    execute_loop fuel self max_steps acc i step h = execute_loop fuel self (-1) acc i step h.
Proof.
  intros Hmax. induction fuel as [|fuel IH]; intros acc i [st|] h;
    rewrite ?execute_loop_None, ?execute_loop_Some; try done;
    replace (0 <? max_steps) with false by (symmetry; apply Z.ltb_ge; lia);
    change (0 <? -1) with false; simpl; [done|].
  apply bind_ext. intros step' h1. apply IH.
Qed.

(** An unbounded [execute] that returns has run until [execute_once]
    returned no step. *)
Lemma execute_loop_returns self max_steps :
  max_steps ≤ 0 →
  ∀ fuel acc i h res h'' tr,
    (step <- execute_once self ;; execute_loop fuel self max_steps acc i step) h
      = Ok res h'' tr →
    ∃ steps h' tr1 tr2,
      res = acc ++ steps ∧ run_steps self h steps h' tr1 ∧
      execute_once self h' = Ok None h'' tr2 ∧ tr = tr1 ++ tr2.
Proof.
  intros Hmax. induction fuel as [|fuel IH]; intros acc i h res h'' tr Hrun;
    apply bind_Ok_inv in Hrun as ([st|] & h1 & tr1 & tr2 & Honce & Hloop & ->).
  - rewrite execute_loop_Some in Hloop.
    replace (0 <? max_steps) with false in Hloop by (symmetry; apply Z.ltb_ge; lia).
    done.
  - rewrite execute_loop_None in Hloop. injection Hloop as <- <- <-.
    exists [], h, [], tr1. rewrite !app_nil_r.
    split; [done|]. split; [constructor|]. by split.
  - rewrite execute_loop_Some in Hloop.
    replace (0 <? max_steps) with false in Hloop by (symmetry; apply Z.ltb_ge; lia).
    simpl in Hloop.
    apply IH in Hloop as (steps & h' & tr3 & tr4 & -> & Hsteps & Hnone & ->).
    exists (st :: steps), h', (tr1 ++ tr3), tr4.
    rewrite <- !app_assoc.
    split; [done|]. split; [by econstructor|]. by split.
  - rewrite execute_loop_None in Hloop. injection Hloop as <- <- <-.
    exists [], h, [], tr1. rewrite !app_nil_r.
    split; [done|]. split; [constructor|]. by split.
Qed.

(** C10: with any [max_steps] that is not positive, zero included, [execute]
    does what it does with the default [-1]: it returns only after
    [execute_once] has returned no step, with all the steps returned before,
    and it does return them whenever [execute_once] returns no step after
    finitely many steps. *)
Theorem nonpositive_max_steps_is_unbounded self max_steps :
  max_steps ≤ 0 →
  (∀ fuel h, execute fuel self max_steps h = execute fuel self (-1) h) ∧
  (∀ fuel h steps h'' tr,
     execute fuel self max_steps h = Ok steps h'' tr →
     ∃ h' tr1 tr2,
       run_steps self h steps h' tr1 ∧
       execute_once self h' = Ok None h'' tr2 ∧ tr = tr1 ++ tr2) ∧
  (∀ h steps h' tr1 h'' tr2,
     run_steps self h steps h' tr1 →
     execute_once self h' = Ok None h'' tr2 →
     ∀ fuel, (length steps ≤ fuel)%nat →
       execute fuel self max_steps h = Ok steps h'' (tr1 ++ tr2)).
Proof.
  intros Hmax. split; [|split].
  - intros fuel h. unfold execute. apply bind_ext. intros step h1.
    by apply execute_loop_nonpositive.
  - intros fuel h steps h'' tr Hrun.
    apply (execute_loop_returns self max_steps Hmax) in Hrun
      as (steps' & h' & tr1 & tr2 & -> & Hsteps & Hnone & ->).
    by exists h', tr1, tr2.
  - intros h steps h' tr1 h'' tr2 Hsteps Hnone fuel Hfuel. unfold execute.
    apply (execute_loop_exhausted _ _ _ _ _ _ _ _ Hsteps Hnone fuel [] 0); [by left|done].
Qed.

End UnboundedExecute.

(** ** What the methods of a harness may change *)

Section HarnessFrames.
Context {Sim : Type} `{!Simulator Sim} `{!Formatter}.
Implicit Types (h : Heap Sim) (self : StateChartTester) (T : list loc).

#[export] Instance touched_composable T : Composable (Sim:=Sim) (touched T).
Proof.
  split; unfold touched.
  - intros h. apply touches_only_refl.
  - intros h h1 h2 _ _. apply touches_only_trans.
Qed.

Lemma respects_weaken {A} (R R' : Heap Sim → Heap Sim → list Call → Prop) (m : M Sim A) :
  (∀ h h' tr, R h h' tr → R' h h' tr) → respects R m → respects R' m.
Proof. intros Himpl Hm h. specialize (Hm h). destruct (m h); try done; by apply Himpl. Qed.

Lemma relays_touched T T' e h h' tr :
  T ⊆ T' → relays T e h h' tr → touched T' h h' tr.
Proof. intros Hsub (Hto & _). by eapply touches_only_mono. Qed.

Lemma testers_engine_locs self : _testers self ⊆ engine_locs self.
Proof. intros l Hl. by right. Qed.

Lemma respects_execute_tester_touched self step e context :
  respects (touched (engine_locs self)) (_execute_tester self step e context).
Proof.
  eapply respects_weaken; [|apply respects_execute_tester].
  intros h h' tr. apply relays_touched, testers_engine_locs.
Qed.

Lemma respects_stop self : respects (touched (engine_locs self)) (stop self).
Proof.
  unfold stop.
  apply respects_bind; [apply _|apply respects_create_context, _|intros context].
  apply respects_for_each; [apply _|]. intros tester _.
  apply respects_bind; [apply _|apply respects_execute_tester_touched|intros _].
  apply respects_bind; [apply _|apply respects_Simulator_running, _|intros running].
  destruct running; [|apply respects_ret, _].
  apply respects_bind; [apply _|apply respects_Simulator_name, _|intros name].
  apply respects_bind; [apply _|apply respects_Simulator_configuration, _|intros conf].
  apply respects_raise, _.
Qed.

Lemma respects_execute_once self : respects (touched (engine_locs self)) (execute_once self).
Proof.
  unfold execute_once.
  apply respects_bind; [apply _| |intros step].
  - eapply respects_weaken;
      [|apply (respects_Simulator_execute_once [_simulator self] _ (mkEvent "step" []));
        apply list_elem_of_here].
    intros h h' tr. apply relays_touched. intros l Hl.
    apply list_elem_of_singleton in Hl as ->. by left.
  - apply respects_bind; [apply _| |intros _; apply respects_ret, _].
    destruct step as [st|]; [|apply respects_stop].
    apply respects_bind; [apply _|apply respects_create_context, _|intros context].
    apply respects_execute_tester_touched.
Qed.

Lemma respects_execute fuel self max_steps :
  respects (touched (engine_locs self)) (execute fuel self max_steps).
Proof.
  unfold execute. apply respects_bind; [apply _|apply respects_execute_once|].
  generalize (@nil MacroStep) as acc. generalize 0 as i.
  induction fuel as [|fuel IH]; intros i acc [st|];
    rewrite ?execute_loop_None, ?execute_loop_Some; try apply respects_ret, _;
    destruct ((0 <? max_steps) && (i + 1 =? max_steps)); try apply respects_ret, _.
  - by intros h.
  - apply respects_bind; [apply _|apply respects_execute_once|]. apply IH.
Qed.

Lemma respects_init simulator testers events :
  respects (touched (simulator :: testers)) (StateChartTester__init__ simulator testers events).
Proof.
  unfold StateChartTester__init__.
  apply respects_bind; [apply _|apply respects_create_context, _|intros context].
  apply respects_bind; [apply _| |intros _].
  { apply (respects_execute_tester_touched (mkStateChartTester simulator testers events)). }
  apply respects_bind; [apply _| |intros _; apply respects_ret, _].
  apply respects_for_each; [apply _|]. intros ev _. simpl.
  eapply respects_weaken; [|apply (respects_Simulator_send [simulator]); apply list_elem_of_here].
  intros h h' tr. apply relays_touched. intros l Hl.
  apply list_elem_of_singleton in Hl as ->. by left.
Qed.

Lemma init_returns_self simulator testers events h self h' tr :
  StateChartTester__init__ simulator testers events h = Ok self h' tr →
  self = mkStateChartTester simulator testers events.
Proof.
  unfold StateChartTester__init__. intros Hinit.
  apply bind_Ok_inv in Hinit as (context & h1 & tr1 & tr2 & _ & Hinit & _).
  apply bind_Ok_inv in Hinit as (? & h2 & tr3 & tr4 & _ & Hinit & _).
  apply bind_Ok_inv in Hinit as (? & h3 & tr5 & tr6 & _ & Hret & _).
  by injection Hret as <- _ _.
Qed.

End HarnessFrames.

(** ** Building harnesses from a configuration *)

Section ConfigurationClaims.
Context {Sim : Type} `{!Simulator Sim} `{!Formatter}.
Implicit Types (h : Heap Sim) (self : StateChartTester) (L : list loc).

Lemma allocated_nil h : allocated h [] h.
Proof.
  split; [|by split]. intros l Hl. by apply elem_of_nil in Hl.
Qed.

Lemma allocated_app h L1 h1 L2 h2 :
  allocated h L1 h1 → allocated h1 L2 h2 → allocated h (L1 ++ L2) h2.
Proof.
  intros (N1 & E1 & V1) (N2 & E2 & V2). split; [|split].
  - intros l [Hl|Hl]%elem_of_app.
    + destruct (N1 l Hl) as (Hnone & eng & Heng & Hev & Hctx).
      split; [done|]. exists eng. rewrite E2, V2 by (by rewrite ?Heng). done.
    + destruct (N2 l Hl) as (Hnone & eng & Heng & Hev & Hctx).
      split.
      * destruct (engines h !! l) as [old|] eqn:Hold; [|done].
        rewrite <- Hnone, E1; by rewrite Hold.
      * exists eng. split; [done|]. split; [|done].
        destruct (evaluators h !! evaluator eng) as [old|] eqn:Hold; [|done].
        rewrite <- Hev, V1; by rewrite Hold.
  - intros l Hl. rewrite E2, E1; [done..|]. by rewrite E1.
  - intros ev Hev. rewrite V2, V1; [done..|]. by rewrite V1.
Qed.

Lemma allocated_touches h L ha hb :
  allocated h L ha → touches_only L ha hb → allocated h L hb.
Proof.
  intros (N & E & V) [TE TS TV TD]. split; [|split].
  - intros l Hl. destruct (N l Hl) as (Hnone & eng & Heng & Hev & Hctx).
    split; [done|]. specialize (TS l). rewrite Heng in TS.
    destruct (engines hb !! l) as [eng'|]; [|done]. injection TS as _ Heq.
    exists eng'. rewrite Heq. split; [done|]. split; [done|]. by apply TD.
  - intros l Hl. rewrite TE; [by apply E|].
    intros Hin. destruct (N l Hin) as (Hnone & _). rewrite Hnone in Hl. by destruct Hl.
  - intros ev Hev. rewrite TV; [by apply V|].
    intros l eng Hin Heng <-. destruct (N l Hin) as (_ & eng' & Heng' & Hnone & _).
    rewrite Heng in Heng'. injection Heng' as <-. rewrite Hnone in Hev. by destruct Hev.
Qed.

(** The default constructor, given no evaluator, creates a simulator and an
    evaluator that the heap did not have. *)
Lemma default_constructor_allocates statechart h :
  ∃ l h',
    TesterConfiguration.Simulator__init__ statechart None h = Ok l h' [] ∧ allocated h [l] h'.
Proof.
  eexists _, _. split; [reflexivity|]. simpl.
  pose proof (is_fresh (dom (engines h))) as Hl. apply not_elem_of_dom in Hl.
  pose proof (is_fresh (dom (evaluators h))) as Hev. apply not_elem_of_dom in Hev.
  split; [|split]; simpl.
  - intros l ->%list_elem_of_singleton. split; [done|].
    eexists. rewrite lookup_insert_eq. split; [done|]. simpl.
    split; [done|]. by rewrite lookup_insert_eq.
  - intros l Hsome. rewrite lookup_insert_ne; [done|].
    intros <-. rewrite Hl in Hsome. by destruct Hsome.
  - intros ev Hsome. rewrite lookup_insert_ne; [done|].
    intros <-. rewrite Hev in Hsome. by destruct Hsome.
Qed.

Lemma build_testers_default
    (tests : list (StateChart * option loc * option (SimulatorClass Sim))) :
  Forall (λ test, test.1.2 = None ∧ test.2 = None) tests →
  ∀ testers h, ∃ new h',
    TesterConfiguration.build_testers tests testers h = Ok (testers ++ new) h' [] ∧
    allocated h new h'.
Proof.
  induction 1 as [|[[statechart evaluator] cls] tests [Hev Hcls] _ IH]; intros testers h.
  - exists [], h. simpl. rewrite app_nil_r. split; [done|apply allocated_nil].
  - simpl in Hev, Hcls. subst. simpl.
    destruct (default_constructor_allocates statechart h) as (l & h1 & Hnew & Halloc).
    destruct (IH (testers ++ [l]) h1) as (new & h2 & Hrest & Halloc2).
    exists (l :: new), h2. split.
    + unfold TesterConfiguration.instantiate. rewrite (bind_ok _ _ _ _ _ _ Hnew), Hrest.
      simpl. by rewrite <- app_assoc.
    + by apply (allocated_app h [l] h1 new h2).
Qed.

(** [build_tester] gives [self] back as it was. *)
Lemma build_tester_self (cfg : TesterConfiguration.t Sim) events h cfg' self h' tr :
  TesterConfiguration.build_tester cfg events h = Ok (cfg', self) h' tr → cfg' = cfg.
Proof.
  unfold TesterConfiguration.build_tester. intros Hbuild.
  apply bind_Ok_inv in Hbuild as (simulator & h1 & tr1 & tr2 & _ & Hbuild & _).
  apply bind_Ok_inv in Hbuild as (testers & h2 & tr3 & tr4 & _ & Hbuild & _).
  apply bind_Ok_inv in Hbuild as (harness & h3 & tr5 & tr6 & _ & Hret & _).
  by injection Hret as <- _ _ _.
Qed.

Lemma build_tester_built (cfg : TesterConfiguration.t Sim) events h self :
  built (TesterConfiguration.build_tester cfg events h) = Some self →
  TesterConfiguration.build_tester cfg events h
    = Ok (cfg, self) (outcome_heap (TesterConfiguration.build_tester cfg events h) h)
         (outcome_trace (TesterConfiguration.build_tester cfg events h)).
Proof.
  destruct (TesterConfiguration.build_tester cfg events h) as [[cfg' harness] h' tr| | |]
    eqn:Hbuild; simpl; try done.
  intros [= ->]. by apply build_tester_self in Hbuild as ->.
Qed.

(** With default simulators only, the simulators of the harness are new, each
    with a new evaluator, and the objects the heap had are untouched. *)
Lemma build_tester_default (cfg : TesterConfiguration.t Sim) events h cfg' self h' tr :
  all_default cfg →
  TesterConfiguration.build_tester cfg events h = Ok (cfg', self) h' tr →
  allocated h (engine_locs self) h'.
Proof.
  intros (Hev & Hcls & Htests) Hbuild. unfold TesterConfiguration.build_tester in Hbuild.
  rewrite Hev, Hcls in Hbuild. simpl in Hbuild.
  destruct (default_constructor_allocates (TesterConfiguration._statechart cfg) h)
    as (simulator & h1 & Hnew & Halloc1).
  rewrite (bind_ok _ _ _ _ _ _ Hnew) in Hbuild.
  destruct (build_testers_default _ Htests [] h1) as (testers & h2 & Hnew2 & Halloc2).
  rewrite (bind_ok _ _ _ _ _ _ Hnew2), !prepend_nil in Hbuild.
  apply bind_Ok_inv in Hbuild as (harness & h3 & tr3 & tr4 & Hinit & Hret & _).
  injection Hret as _ <- <- _. change ([] ++ testers) with testers in Hinit.
  pose proof (init_returns_self _ _ _ _ _ _ _ Hinit) as ->.
  pose proof (respects_init simulator testers events h2) as Hto. rewrite Hinit in Hto.
  eapply allocated_touches; [|exact Hto].
  by apply (allocated_app h [simulator] h1 testers h2).
Qed.

Lemma evaluator_locs_elem h L ev :
  ev ∈ evaluator_locs h L ↔ ∃ l eng, l ∈ L ∧ engines h !! l = Some eng ∧ evaluator eng = ev.
Proof.
  unfold evaluator_locs. rewrite list_elem_of_omap. split.
  - intros (l & Hl & Heq). destruct (engines h !! l) as [eng|] eqn:Heng; [|done].
    injection Heq as <-. by exists l, eng.
  - intros (l & eng & Hl & Heng & <-). exists l. by rewrite Heng.
Qed.

(** What one harness does leaves the objects of a separate harness alone,
    and the two stay separate. *)
Lemma separate_progress h h' HA HB :
  separate h HA HB → touches_only (engine_locs HA) h h' →
  same_objects HB h h' ∧ separate h' HA HB.
Proof.
  intros [Hlocs Hevs] [TE TS TV TD].
  assert (∀ L ev, ev ∈ evaluator_locs h' L ↔ ev ∈ evaluator_locs h L) as Hsame.
  { intros L ev. rewrite !evaluator_locs_elem. split.
    - intros (l & eng' & Hl & Heng' & <-). specialize (TS l). rewrite Heng' in TS.
      destruct (engines h !! l) as [eng|] eqn:Heng; [|done]. injection TS as _ Heq.
      exists l, eng. split_and!; [done|done|congruence].
    - intros (l & eng & Hl & Heng & <-). specialize (TS l). rewrite Heng in TS.
      destruct (engines h' !! l) as [eng'|] eqn:Heng'; [|done]. injection TS as _ Heq.
      exists l, eng'. split_and!; [done|done|congruence]. }
  split; [split|split].
  - intros l Hl. apply TE. intros Hin. by apply (Hlocs l Hin).
  - intros ev Hev. apply TV. intros l eng Hl Heng <-.
    apply (Hevs (evaluator eng)); [|done]. apply evaluator_locs_elem. by exists l, eng.
  - done.
  - intros ev HevA HevB. apply Hsame in HevA, HevB. by apply (Hevs ev).
Qed.

End ConfigurationClaims.

Section ConfigurationReuse.
Context {Sim : Type} `{!Simulator Sim} `{!Formatter}.
Implicit Types (h : Heap Sim) (self : StateChartTester).

Lemma runs_alone_always (HA HB : StateChartTester) : runs_alone (Sim:=Sim) HA HB.
Proof.
  intros fuel max_steps h Hsep.
  pose proof (respects_execute fuel HA max_steps h) as Hto.
  destruct (execute fuel HA max_steps h); try done; by eapply separate_progress.
Qed.

Lemma allocated_separate h0 h1 h2 (HA HB : StateChartTester) :
  allocated h0 (engine_locs HA) h1 → allocated h1 (engine_locs HB) h2 →
  same_objects HA h1 h2 ∧ separate h2 HA HB ∧ separate h2 HB HA.
Proof.
  intros (NA & _ & _) (NB & EB & VB).
  assert (same_objects HA h1 h2) as Hsame.
  { split.
    - intros l Hl. destruct (NA l Hl) as (_ & eng & Heng & _). apply EB. by rewrite Heng.
    - intros ev (l & eng & Hl & Heng & <-)%evaluator_locs_elem.
      destruct (NA l Hl) as (_ & eng' & Heng' & _ & Hctx).
      rewrite Heng in Heng'. injection Heng' as <-. by apply VB. }
  assert (∀ l, l ∈ engine_locs HA → l ∉ engine_locs HB) as Hlocs.
  { intros l HlA HlB. destruct (NA l HlA) as (_ & eng & Heng & _).
    destruct (NB l HlB) as (Hnone & _). by rewrite Hnone in Heng. }
  assert (∀ ev, ev ∈ evaluator_locs h2 (engine_locs HA) →
                ev ∉ evaluator_locs h2 (engine_locs HB)) as Hevs.
  { intros ev (l & eng & Hl & Heng & <-)%evaluator_locs_elem
              (l' & eng' & Hl' & Heng' & Heq)%evaluator_locs_elem.
    destruct (NA l Hl) as (_ & eng1 & Heng1 & _ & Hctx).
    rewrite (proj1 Hsame l Hl), Heng1 in Heng. injection Heng as <-.
    destruct (NB l' Hl') as (_ & eng2 & Heng2 & Hnone & _).
    rewrite Heng' in Heng2. injection Heng2 as <-.
    rewrite Heq in Hnone. rewrite Hnone in Hctx. by destruct Hctx. }
  split; [done|]. split; [by split|].
  split.
  - intros l HlB HlA. by apply (Hlocs l HlA).
  - intros ev HevB HevA. by apply (Hevs ev HevA).
Qed.

(** The default constructor, given no evaluator, creates new objects,
    whether it is used for want of a class or named as the class. *)
Lemma default_creates_new : creates_new (Sim:=Sim) None None.
Proof.
  intros statechart h l h' tr Hnew.
  destruct (default_constructor_allocates statechart h) as (l0 & h0 & Hnew0 & Halloc).
  unfold TesterConfiguration.instantiate in Hnew. rewrite Hnew0 in Hnew.
  by injection Hnew as <- <- _.
Qed.

Lemma named_default_creates_new :
  creates_new (Sim:=Sim) (Some TesterConfiguration.Simulator__init__) None.
Proof. exact default_creates_new. Qed.

Lemma all_default_all_new (cfg : TesterConfiguration.t Sim) : all_default cfg → all_new cfg.
Proof.
  intros (Hev & Hcls & Htests). split.
  - rewrite Hev, Hcls. apply default_creates_new.
  - eapply Forall_impl; [exact Htests|]. intros [[statechart ev] cls] [Hev' Hcls'].
    simpl in *. subst. apply default_creates_new.
Qed.

Lemma build_testers_new
    (tests : list (StateChart * option loc * option (SimulatorClass Sim))) :
  Forall (λ test, creates_new test.2 test.1.2) tests →
  ∀ testers h out h' tr,
    TesterConfiguration.build_testers tests testers h = Ok out h' tr →
    ∃ new, out = testers ++ new ∧ allocated h new h'.
Proof.
  induction 1 as [|[[statechart evaluator] cls] tests Hnew _ IH];
    intros testers h out h' tr Hbuild; simpl in Hbuild.
  - injection Hbuild as <- <- _. exists []. rewrite app_nil_r.
    split; [done|apply allocated_nil].
  - apply bind_Ok_inv in Hbuild as (l & h1 & tr1 & tr2 & Hcls & Hrest & _).
    apply Hnew in Hcls. apply IH in Hrest as (new & -> & Halloc).
    exists (l :: new). rewrite <- app_assoc. split; [done|].
    by apply (allocated_app h [l] h1 new h').
Qed.

(** When every class of the configuration creates new objects, the
    simulators of the harness are new, each with a new evaluator, and the
    objects the heap had are untouched. *)
Lemma build_tester_new (cfg : TesterConfiguration.t Sim) events h cfg' self h' tr :
  all_new cfg →
  TesterConfiguration.build_tester cfg events h = Ok (cfg', self) h' tr →
  allocated h (engine_locs self) h'.
Proof.
  intros [Hsubject Htests] Hbuild. unfold TesterConfiguration.build_tester in Hbuild.
  apply bind_Ok_inv in Hbuild as (simulator & h1 & tr1 & tr2 & Hnew1 & Hbuild & _).
  apply bind_Ok_inv in Hbuild as (testers & h2 & tr3 & tr4 & Hnew2 & Hbuild & _).
  apply bind_Ok_inv in Hbuild as (harness & h3 & tr5 & tr6 & Hinit & Hret & _).
  injection Hret as _ <- <- _.
  apply Hsubject in Hnew1. apply (build_testers_new _ Htests) in Hnew2 as (new & -> & Halloc2).
  change ([] ++ new) with new in Hinit.
  pose proof (init_returns_self _ _ _ _ _ _ _ Hinit) as ->.
  pose proof (respects_init simulator new events h2) as Hto. rewrite Hinit in Hto.
  eapply allocated_touches; [|exact Hto].
  by apply (allocated_app h [simulator] h1 new h2).
Qed.

(** C8, amended: [build_tester] gives every configuration back as it was.
    The default constructor, given no evaluator, creates a new simulator
    with a new evaluator of its own and leaves every existing object as it
    was.  When, for every descriptor of the configuration, the class (the
    default constructor when none is named) called with the descriptor's
    evaluator does so, two harnesses built from the configuration one after
    the other have simulators and evaluators that are new when they are
    built, the second build leaves those of the first harness as they were,
    the two harnesses share no simulator and no evaluator, and whatever
    [execute] does on one of them leaves the objects of the other as they
    were. *)
Theorem build_tester_twice :
  (∀ (cfg : TesterConfiguration.t Sim) events h cfg' self h' tr,
     TesterConfiguration.build_tester cfg events h = Ok (cfg', self) h' tr → cfg' = cfg) ∧
  creates_new (Sim:=Sim) None None ∧
  (∀ (cfg : TesterConfiguration.t Sim) events1 events2 h0 cfg1 H1 h1 tr1 cfg2 H2 h2 tr2,
     all_new cfg →
     TesterConfiguration.build_tester cfg events1 h0 = Ok (cfg1, H1) h1 tr1 →
     TesterConfiguration.build_tester cfg1 events2 h1 = Ok (cfg2, H2) h2 tr2 →
     cfg1 = cfg ∧ cfg2 = cfg ∧
     allocated h0 (engine_locs H1) h1 ∧
     allocated h1 (engine_locs H2) h2 ∧
     same_objects H1 h1 h2 ∧
     separate h2 H1 H2 ∧ separate h2 H2 H1 ∧
     runs_alone (Sim:=Sim) H1 H2 ∧ runs_alone (Sim:=Sim) H2 H1).
Proof.
  split; [|split].
  - intros cfg events h cfg' self h' tr. apply build_tester_self.
  - apply default_creates_new.
  - intros cfg events1 events2 h0 cfg1 H1 h1 tr1 cfg2 H2 h2 tr2 Hnew Hbuild1 Hbuild2.
    pose proof (build_tester_self _ _ _ _ _ _ _ Hbuild1) as ->.
    pose proof (build_tester_self _ _ _ _ _ _ _ Hbuild2) as ->.
    pose proof (build_tester_new _ _ _ _ _ _ _ Hnew Hbuild1) as Halloc1.
    pose proof (build_tester_new _ _ _ _ _ _ _ Hnew Hbuild2) as Halloc2.
    destruct (allocated_separate _ _ _ _ _ Halloc1 Halloc2) as (Hsame & Hsep & Hsep').
    split_and!; try done; apply runs_alone_always.
Qed.

End ConfigurationReuse.


(** The example of C5 on the scripted subject: entered set {A, B}, exited
    set {C}. *)
Lemma step_context_entered_exited_witness :
  ∃ context,
    _create_context two_testers_harness (Some step_AB_C) (two_testers_heap [])
      = Ok context (two_testers_heap []) [] ∧
    ask (two_testers_heap []) context "entered" (Some "A") = Some true ∧
    ask (two_testers_heap []) context "entered" (Some "B") = Some true ∧
    ask (two_testers_heap []) context "entered" (Some "C") = Some false ∧
    ask (two_testers_heap []) context "exited" (Some "C") = Some true ∧
    ask (two_testers_heap []) context "exited" (Some "A") = Some false.
Proof.
  destruct (step_context_entered_exited two_testers_harness step_AB_C
              (two_testers_heap []) (subject_engine []) eq_refl)
    as (context & Hcontext & Hask & _).
  exists context. split; [exact Hcontext|].
  rewrite !(proj1 (Hask _ _)), !(proj2 (Hask _ _)). by vm_compute.
Defined.

Lemma no_step_context_answers_witness :
  ∃ context,
    _create_context two_testers_harness None (two_testers_heap [step_initial])
      = Ok context (two_testers_heap [step_initial]) [] ∧
    ask (two_testers_heap []) context "entered" (Some "s1") = Some false ∧
    ask (two_testers_heap []) context "consumed" (Some "goto s2") = Some false.
Proof.
  destruct (no_step_context_answers two_testers_harness
              (two_testers_heap [step_initial]) (subject_engine [step_initial]) eq_refl)
    as (context & Hcontext & Hask & _).
  exists context. split; [exact Hcontext|].
  split; apply Hask.
Defined.

Lemma none_matches_absent_event_witness :
  ∃ context,
    _create_context two_testers_harness (Some step_eventless) (two_testers_heap [])
      = Ok context (two_testers_heap []) [] ∧
    ask (two_testers_heap []) context "consumed" None = Some true ∧
    ask (two_testers_heap []) context "processed" None = Some true.
Proof.
  destruct (none_matches_absent_event two_testers_harness (Some step_eventless)
              (two_testers_heap []) (subject_engine []) eq_refl)
    as (context & Hcontext & _ & Hconsumed & Hprocessed).
  exists context. split; [exact Hcontext|].
  split; [by eapply Hconsumed | by eapply Hprocessed].
Defined.

Lemma assertion_failure_is_enriched_witness :
  ∃ msg h2 tr,
    _execute_tester three_testers_harness (Some step_goto_s2) (mkEvent "step" [])
      goto_s2_context (three_testers_heap []) = Raise (AssertionError [msg]) h2 tr ∧
    includes "subject" msg ∧ includes "t2" msg ∧ includes "(unexpected step)" msg ∧
    includes "[watching]" msg ∧ includes "Step: MacroStep(s2)" msg.
Proof.
  set (self := three_testers_harness). set (step := Some step_goto_s2).
  set (e := mkEvent "step" []). set (context := goto_s2_context).
  set (h := three_testers_heap []).
  set (first := for_each [2%positive] (relay_to self step e context) h).
  set (second :=
         (Simulator_send 3%positive e ;;
          for_each context (λ '(key, value), Simulator_set_context 3%positive key value))
           (outcome_heap first h)).
  set (third := Simulator_execute 3%positive (outcome_heap second h)).
  destruct (assertion_failure_is_enriched self step e context
              [2%positive] 3%positive [4%positive] h
              (outcome_heap first h) (outcome_trace first)
              (outcome_heap second h) (outcome_trace second)
              ["unexpected step"]
              (outcome_heap third h) (outcome_trace third)
              (subject_engine [])
              (mkEngine (mkStateChart "t2") 12%positive
                 (mkScripted [e] [] ["step"] false ["watching"])))
    as (msg & Hraise & Hsubject & Htester & Hargs & Hconf & _ & Hstep & _);
    [by vm_compute..|].
  exists msg. do 2 eexists. split; [exact Hraise|]. by repeat split.
Defined.

Lemma relay_is_fail_fast_witness :
  ∃ err h2 tr,
    _execute_tester three_testers_harness (Some step_goto_s2) (mkEvent "step" [])
      goto_s2_context (three_testers_heap []) = Raise err h2 tr ∧
    sends_to 2%positive tr = [mkEvent "step" []] ∧
    sends_to 3%positive tr = [mkEvent "step" []] ∧
    sends_to 4%positive tr = [] ∧
    engines h2 !! 4%positive = Some (tester_engine "t3" 13%positive [] false).
Proof.
  pose (self := three_testers_harness). pose (step := Some step_goto_s2).
  pose (e := mkEvent "step" []). pose (context := goto_s2_context).
  pose (h := three_testers_heap []).
  pose (first := for_each [2%positive] (relay_to self step e context) h).
  pose (second := relay_to self step e context 3%positive (outcome_heap first h)).
  assert (for_each [2%positive] (relay_to self step e context) h
          = Ok tt (outcome_heap first h) (outcome_trace first)) as Hfirst by (by vm_compute).
  assert (∃ err, relay_to self step e context 3%positive (outcome_heap first h)
                 = Raise err (outcome_heap second h) (outcome_trace second))
    as [err Hsecond] by (eexists; by vm_compute).
  assert (_testers self = [2%positive] ++ 3%positive :: [4%positive]) as Htesters by done.
  pose proof (relay_is_fail_fast self step e context [2%positive] 3%positive [4%positive] h
                (outcome_heap first h) (outcome_trace first) err
                (outcome_heap second h) (outcome_trace second)
                Htesters Hfirst Hsecond) as (Hraise & _ & Hlater).
  assert (4%positive ∈ [4%positive]) as Hin by apply list_elem_of_here.
  assert (4%positive ∉ [2%positive] ++ [3%positive]) as Hnotin.
  { intros [Hbad|Hbad]%elem_of_app; by apply list_elem_of_singleton in Hbad. }
  pose proof (Hlater 4%positive Hin Hnotin) as (_ & Hsends & Hengine & _).
  exists err. do 2 eexists. split; [exact Hraise|].
  split; [by vm_compute|]. split; [by vm_compute|]. split; [exact Hsends|].
  etrans; [exact Hengine|]. by vm_compute.
Defined.

(** The example of C7: [execute(max_steps=1)] on a subject with five pending
    steps returns one step and sends no [stop]; the next, unbounded
    [execute()] returns the other four and ends with [stop]. *)
Lemma execute_collects_steps_witness :
  ∃ h1 tr1 h2 tr2 h_stop tr_stop,
    execute 1 two_testers_harness 1 (two_testers_heap five_steps)
      = Ok [step_initial] h1 tr1 ∧
    only_sends (mkEvent "step" []) tr1 ∧
    execute 4 two_testers_harness (-1) h1
      = Ok [step_goto_s2; step_eventless; step_AB_C; step_AB_C] h2 tr2 ∧
    stop two_testers_harness h_stop = Ok tt h2 tr_stop ∧
    tr_stop `suffix_of` tr2.
Proof.
  pose (self := two_testers_harness). pose (h := two_testers_heap five_steps).
  pose (h1 := collected_heap 1 self h).
  pose (h' := collected_heap 4 self h1).
  assert (run_steps self h [step_initial] h1 (collected_trace 1 self h)) as Hrun1.
  { apply (collect_run_steps 1). by vm_compute. }
  assert (run_steps self h1 [step_goto_s2; step_eventless; step_AB_C; step_AB_C] h'
            (collected_trace 4 self h1)) as Hrun2.
  { apply (collect_run_steps 4). by vm_compute. }
  assert (execute_once self h'
          = Ok None (outcome_heap (execute_once self h') h')
               (outcome_trace (execute_once self h'))) as Hnone by (by vm_compute).
  pose proof (execute_collects_steps self 1 h _ _ _ Hrun1) as [Hbounded _].
  pose proof (Hbounded eq_refl eq_refl 1%nat (le_n 1)) as [Hfirst Honly].
  pose proof (execute_collects_steps self (-1) h1 _ _ _ Hrun2) as [_ Hexhausted].
  assert (-1 ≤ 0) as Hunbounded by done.
  pose proof (Hexhausted _ _ Hnone (or_introl Hunbounded) 4%nat (le_n 4))
    as [Hsecond (h_stop & tr_stop & Hstop & Htr)].
  do 6 eexists. split; [exact Hfirst|]. split; [exact Honly|].
  split; [exact Hsecond|]. split; [exact Hstop|].
  rewrite Htr. by apply suffix_app_r, suffix_cons_r.
Defined.

Lemma nonpositive_max_steps_is_unbounded_witness :
  ∃ h'' tr,
    execute 3 two_testers_harness 0
      (two_testers_heap [step_initial; step_goto_s2; step_eventless])
      = Ok [step_initial; step_goto_s2; step_eventless] h'' tr ∧
    execute 3 two_testers_harness 0
      (two_testers_heap [step_initial; step_goto_s2; step_eventless])
      = execute 3 two_testers_harness (-1)
          (two_testers_heap [step_initial; step_goto_s2; step_eventless]).
Proof.
  pose (self := two_testers_harness).
  pose (h := two_testers_heap [step_initial; step_goto_s2; step_eventless]).
  pose (h' := collected_heap 3 self h).
  assert (run_steps self h [step_initial; step_goto_s2; step_eventless] h'
            (collected_trace 3 self h)) as Hrun.
  { apply (collect_run_steps 3). by vm_compute. }
  assert (execute_once self h'
          = Ok None (outcome_heap (execute_once self h') h')
               (outcome_trace (execute_once self h'))) as Hnone by (by vm_compute).
  destruct (nonpositive_max_steps_is_unbounded self 0 (Z.le_refl 0))
    as (Hsame & _ & Hruns).
  do 2 eexists. split; [|apply Hsame].
  exact (Hruns _ _ _ _ _ _ Hrun Hnone 3%nat (le_n 3)).
Defined.

Lemma build_tester_twice_witness :
  all_new named_class_configuration ∧
  ∃ cfg1 h1 tr1 cfg2 h2 tr2,
    TesterConfiguration.build_tester named_class_configuration [goto_s2] empty_heap
      = Ok (cfg1, mkStateChartTester 1%positive [2; 3]%positive [goto_s2]) h1 tr1 ∧
    TesterConfiguration.build_tester cfg1 [] h1
      = Ok (cfg2, mkStateChartTester 4%positive [5; 6]%positive []) h2 tr2 ∧
    cfg2 = named_class_configuration ∧
    separate h2 (mkStateChartTester 1%positive [2; 3]%positive [goto_s2])
                (mkStateChartTester 4%positive [5; 6]%positive []).
Proof.
  pose (cfg := named_class_configuration).
  pose (first := TesterConfiguration.build_tester cfg [goto_s2] empty_heap).
  pose (h1 := outcome_heap first empty_heap).
  pose (second := TesterConfiguration.build_tester cfg [] h1).
  pose (h2 := outcome_heap second h1).
  assert (built first = Some (mkStateChartTester 1%positive [2; 3]%positive [goto_s2]))
    as Hfirst by (by vm_compute).
  assert (built second = Some (mkStateChartTester 4%positive [5; 6]%positive []))
    as Hsecond by (by vm_compute).
  apply build_tester_built in Hfirst, Hsecond.
  destruct (build_tester_twice (Sim:=Scripted)) as (_ & Hdefault & Htwice).
  assert (all_new cfg) as Hnew.
  { split; [exact Hdefault|].
    apply Forall_cons_2; [exact Hdefault|]. apply Forall_cons_2; [exact Hdefault|].
    apply Forall_nil_2. }
  pose proof (Htwice cfg [goto_s2] [] empty_heap _ _ _ _ _ _ _ _ Hnew Hfirst Hsecond)
    as (_ & Hcfg2 & _ & _ & _ & Hsep & _).
  split; [exact Hnew|].
  exists cfg, h1, (outcome_trace first), cfg, h2, (outcome_trace second).
  split; [exact Hfirst|]. split; [exact Hsecond|]. split; [exact Hcfg2|exact Hsep].
Defined.

(** C8 as stated fails when a test is given an evaluator: the testers of the
    two harnesses built from [shared_evaluator_configuration] use the same
    evaluator, at location 20, and the second build rebinds [active] in its
    context to the subject of the second harness. *)
Lemma shared_evaluator_counterexample :
  ∃ cfg1 h1 tr1 cfg2 h2 tr2,
    TesterConfiguration.build_tester shared_evaluator_configuration [] one_evaluator_heap
      = Ok (cfg1, mkStateChartTester 1%positive [2%positive] []) h1 tr1 ∧
    TesterConfiguration.build_tester cfg1 [goto_s2] h1
      = Ok (cfg2, mkStateChartTester 3%positive [4%positive] [goto_s2]) h2 tr2 ∧
    ¬ separate h2 (mkStateChartTester 1%positive [2%positive] [])
                  (mkStateChartTester 3%positive [4%positive] [goto_s2]) ∧
    evaluator <$> engines h2 !! 2%positive = Some 20%positive ∧
    evaluator <$> engines h2 !! 4%positive = Some 20%positive ∧
    evaluators h1 !! 20%positive ≫= (.!! "active") = Some (VActive 1%positive) ∧
    evaluators h2 !! 20%positive ≫= (.!! "active") = Some (VActive 3%positive).
Proof.
  pose (cfg := shared_evaluator_configuration).
  pose (first := TesterConfiguration.build_tester cfg [] one_evaluator_heap).
  pose (h1 := outcome_heap first one_evaluator_heap).
  pose (second := TesterConfiguration.build_tester cfg [goto_s2] h1).
  pose (h2 := outcome_heap second one_evaluator_heap).
  assert (evaluator <$> engines h2 !! 2%positive = Some 20%positive) as Hev2
    by (by vm_compute).
  assert (evaluator <$> engines h2 !! 4%positive = Some 20%positive) as Hev4
    by (by vm_compute).
  exists cfg, h1, (outcome_trace first), cfg, h2, (outcome_trace second).
  split; [by vm_compute|]. split; [by vm_compute|].
  split; [|split; [exact Hev2|split; [exact Hev4|split; by vm_compute]]].
  intros [_ Hevs].
  apply fmap_Some in Hev2 as (eng2 & Heng2 & Heq2).
  apply fmap_Some in Hev4 as (eng4 & Heng4 & Heq4).
  apply (Hevs 20%positive); apply evaluator_locs_elem.
  - exists 2%positive, eng2. split; [|by split].
    apply list_elem_of_further, list_elem_of_here.
  - exists 4%positive, eng4. split; [|by split].
    apply list_elem_of_further, list_elem_of_here.
Qed.

(** ** Evaluations on concrete harnesses *)

(** C1, on a harness with two testers that never fail and are final: one call
    of [stop] sends the event [stop] twice to each tester.  With a first
    tester that is not final and a second tester that objects to [stop], the
    call raises the failure of the second tester, not the message that the
    first one is not final. *)
Theorem stop_relays_to_all_for_each_tester :
  (∃ h' tr,
     stop two_testers_harness (two_testers_heap []) = Ok tt h' tr ∧
     sends_to 2%positive tr = [mkEvent "stop" []; mkEvent "stop" []] ∧
     sends_to 3%positive tr = [mkEvent "stop" []; mkEvent "stop" []]) ∧
  (∃ msg h' tr,
     stop two_testers_harness stop_order_heap = Raise (AssertionError [msg]) h' tr ∧
     msg ≠ not_final_message "t1" ["watching"] ∧
     sends_to 3%positive tr = [mkEvent "stop" []] ∧
     (engines h' !! 2%positive ≫= λ eng, Some (sim_running (core eng))) = Some true).
Proof.
  split.
  - exists (outcome_heap (stop two_testers_harness (two_testers_heap [])) empty_heap),
           (outcome_trace (stop two_testers_harness (two_testers_heap []))).
    by vm_compute.
  - eexists _, (outcome_heap (stop two_testers_harness stop_order_heap) empty_heap),
            (outcome_trace (stop two_testers_harness stop_order_heap)).
    split; [vm_compute; reflexivity|]. by vm_compute.
Qed.

(** C2, on the same harness built for the scenario [goto s2] and run until
    the subject has no step left: each tester is sent [start], then one
    [step] for each of the three steps of the subject, and then [stop]
    twice. *)
Theorem lifecycle_ends_with_two_stops :
  ∃ h' tr,
    (self <- StateChartTester__init__ 1%positive [2; 3]%positive [goto_s2] ;;
     execute 3 self (-1))
      (two_testers_heap [step_initial; step_goto_s2; step_eventless])
      = Ok [step_initial; step_goto_s2; step_eventless] h' tr ∧
    sends_to 2%positive tr
      = [mkEvent "start" []; mkEvent "step" []; mkEvent "step" []; mkEvent "step" [];
         mkEvent "stop" []; mkEvent "stop" []] ∧
    sends_to 3%positive tr
      = [mkEvent "start" []; mkEvent "step" []; mkEvent "step" []; mkEvent "step" [];
         mkEvent "stop" []; mkEvent "stop" []].
Proof.
  pose (run := (self <- StateChartTester__init__ 1%positive [2; 3]%positive [goto_s2] ;;
                execute 3 self (-1))
                 (two_testers_heap [step_initial; step_goto_s2; step_eventless])).
  exists (outcome_heap run empty_heap), (outcome_trace run). by vm_compute.
Qed.

(** * Further properties of the harness *)

(** ** The event predicates of a context *)

Section EventPredicates.
Context {Sim : Type} `{!Simulator Sim} `{!Formatter}.

(** In the context of a step, [consumed(x)] is true exactly when the step
    consumed an event named [x], and [processed(x)] exactly when the
    transition of the step has an event named [x]; both are false for every
    name when there is no such event. *)
Theorem processed_consumed_match_names (self : StateChartTester) (st : MacroStep)
    (h : Heap Sim) (eng : Engine Sim) :
  engines h !! _simulator self = Some eng →
  ∃ context,
    _create_context self (Some st) h = Ok context h [] ∧
    ∀ (hq : Heap Sim) (x : string),
      (∀ ev, event st = Some ev →
         ask hq context "consumed" (Some x) = Some (bool_decide (event_name ev = x))) ∧
      (event st = None → ask hq context "consumed" (Some x) = Some false) ∧
      (∀ tr ev, transition st = Some tr → tr_event tr = Some ev →
         ask hq context "processed" (Some x) = Some (bool_decide (event_name ev = x))) ∧
      (transition st ≫= tr_event = None →
         ask hq context "processed" (Some x) = Some false).
Proof.
  intros Heng. eexists. split; [by apply create_context_eq|].
  intros hq x. split_and!.
  - intros ev Hev. erewrite ask_eq; [|reflexivity]. simpl. rewrite Hev. simpl.
    f_equal. apply bool_decide_ext. split; [by intros [= ->]|by intros ->].
  - intros Hev. erewrite ask_eq; [|reflexivity]. simpl. by rewrite Hev.
  - intros tr ev Htr Hev. erewrite ask_eq; [|reflexivity]. simpl. rewrite Htr. simpl.
    rewrite Hev. simpl. f_equal. apply bool_decide_ext.
    split; [by intros [= ->]|by intros ->].
  - intros Htr. erewrite ask_eq; [|reflexivity]. simpl. by rewrite Htr.
Qed.

End EventPredicates.

Lemma processed_consumed_match_names_witness :
  ∃ context,
    _create_context two_testers_harness (Some step_goto_s2) (two_testers_heap [])
      = Ok context (two_testers_heap []) [] ∧
    ask (two_testers_heap []) context "consumed" (Some "goto s2") = Some true ∧
    ask (two_testers_heap []) context "consumed" (Some "goto s3") = Some false ∧
    ask (two_testers_heap []) context "processed" (Some "goto s2") = Some true.
Proof.
  destruct (processed_consumed_match_names two_testers_harness step_goto_s2
              (two_testers_heap []) (subject_engine []) eq_refl)
    as (context & Hcontext & Hask).
  exists context. split; [exact Hcontext|].
  destruct (Hask (two_testers_heap []) "goto s2") as (Hconsumed & _ & Hprocessed & _).
  destruct (Hask (two_testers_heap []) "goto s3") as (Hother & _).
  rewrite (Hconsumed goto_s2 eq_refl), (Hother goto_s2 eq_refl),
    (Hprocessed (mkTransition (Some goto_s2)) goto_s2 eq_refl eq_refl).
  by vm_compute.
Defined.

(** ** The calls of a relay *)

Section RelayCalls.
Context {Sim : Type} `{!Simulator Sim} `{!Formatter}.
Implicit Types (h : Heap Sim) (self : StateChartTester).

Lemma Simulator_send_eq t e h eng :
  engines h !! t = Some eng →
  Simulator_send t e h =
    Ok tt (mkHeap (<[t := mkEngine (_statechart eng) (evaluator eng) (sim_send e (core eng))]>
                     (engines h)) (evaluators h)) [CallSend t e].
Proof.
  intros Heng. unfold Simulator_send, bind, get_engine, set_core, emit.
  rewrite Heng. simpl. by rewrite Heng.
Qed.

Lemma Simulator_send_inv t e h (o : Outcome Sim unit) :
  Simulator_send t e h = o →
  (∃ eng, engines h !! t = Some eng ∧
          o = Ok tt (mkHeap (<[t := mkEngine (_statechart eng) (evaluator eng)
                                       (sim_send e (core eng))]> (engines h))
                            (evaluators h)) [CallSend t e]) ∨
  (engines h !! t = None ∧ o = Stuck).
Proof.
  intros <-. destruct (engines h !! t) as [eng|] eqn:Heng.
  - left. exists eng. split; [done|]. by apply Simulator_send_eq.
  - right. split; [done|]. unfold Simulator_send, bind, get_engine. by rewrite Heng.
Qed.

Lemma Simulator_set_context_eq t key value h eng ctx :
  engines h !! t = Some eng → evaluators h !! evaluator eng = Some ctx →
  Simulator_set_context t key value h =
    Ok tt (mkHeap (engines h) (<[evaluator eng := <[key := value]> ctx]> (evaluators h)))
       [CallSetContext t key value].
Proof.
  intros Heng Hctx. unfold Simulator_set_context, bind, get_engine, get_context, put_context, emit.
  rewrite Heng. simpl. by rewrite Hctx.
Qed.

Lemma Simulator_set_context_Ok t key value h h' tr :
  Simulator_set_context (Sim:=Sim) t key value h = Ok tt h' tr →
  tr = [CallSetContext t key value].
Proof.
  unfold Simulator_set_context, bind, get_engine, get_context, put_context, emit.
  destruct (engines h !! t) as [eng|]; [|done]. simpl.
  destruct (evaluators h !! evaluator eng) as [ctx|]; [|done]. simpl.
  by intros [= _ <-].
Qed.

Lemma Simulator_set_context_no_raise t key value h err h' tr :
  Simulator_set_context (Sim:=Sim) t key value h ≠ Raise err h' tr.
Proof.
  unfold Simulator_set_context, bind, get_engine, get_context, put_context, emit.
  destruct (engines h !! t) as [eng|]; [|done]. simpl.
  by destruct (evaluators h !! evaluator eng) as [ctx|].
Qed.

Lemma overlay_calls_Ok t (context : Context) h h' tr :
  for_each context (λ '(key, value), Simulator_set_context (Sim:=Sim) t key value) h
    = Ok tt h' tr →
  tr = map (λ item, CallSetContext t item.1 item.2) context.
Proof.
  revert h tr. induction context as [|[key value] context IH]; intros h tr; simpl.
  - by intros [= _ <-].
  - intros ([] & h1 & tr1 & tr2 & Hset & Hrest & ->)%bind_Ok_inv.
    apply Simulator_set_context_Ok in Hset as ->. apply IH in Hrest as ->. done.
Qed.

Lemma overlay_calls_no_raise t (context : Context) h err h' tr :
  for_each context (λ '(key, value), Simulator_set_context (Sim:=Sim) t key value) h
    ≠ Raise err h' tr.
Proof.
  revert h tr. induction context as [|[key value] context IH]; intros h tr; simpl; [done|].
  intros [Hset|(? & h1 & tr1 & tr2 & _ & Hrest & _)]%bind_Raise_inv.
  - by apply Simulator_set_context_no_raise in Hset.
  - by apply IH in Hrest.
Qed.

Lemma Simulator_execute_trace t h :
  match Simulator_execute t h with
  | Ok _ _ tr | Raise _ _ tr => tr = [CallExecute t]
  | Stuck | OutOfFuel => True
  end.
Proof.
  unfold Simulator_execute, bind, get_engine, get_context, get_heap, set_core, put_context, emit.
  destruct (engines h !! t) as [eng|] eqn:Heng; [|done]. simpl.
  destruct (evaluators h !! evaluator eng) as [ctx|]; [|done]. simpl.
  destruct (sim_execute h (core eng) ctx) as [[c' ctx'] r]. rewrite Heng. simpl.
  by destruct r.
Qed.

Lemma relay_to_Ok_calls self step e context t h h' tr :
  relay_to self step e context t h = Ok tt h' tr → tr = relay_calls e context t.
Proof.
  unfold relay_to.
  intros ([] & h1 & tr1 & tr2 & Hsend & Hrest & ->)%bind_Ok_inv.
  apply bind_Ok_inv in Hrest as ([] & h2 & tr3 & tr4 & Hset & Htry & ->).
  apply Simulator_send_inv in Hsend as [(eng & _ & [= _ ->])|[_ ?]]; [|done].
  apply overlay_calls_Ok in Hset as ->.
  unfold try_except in Htry.
  destruct (bind (Simulator_execute t) (λ _, ret tt) h2) as [[] h3 tr5|err h3 tr5| |] eqn:Hexec;
    try done.
  - injection Htry as _ <-.
    apply bind_Ok_inv in Hexec as (steps & h4 & tr6 & tr7 & Hexec & [= _ <-] & ->).
    pose proof (Simulator_execute_trace t h2) as Htr. rewrite Hexec in Htr. subst tr6.
    done.
  - destruct err as [args|kind args]; simpl in Htry; [|done].
    unfold bind in Htry.
    destruct (failure_message self t args step h3) as [msg h5 tr8| | |]; done.
Qed.

Lemma relays_Ok_calls self step e context testers h h' tr :
  for_each testers (relay_to self step e context) h = Ok tt h' tr →
  tr = testers ≫= relay_calls e context.
Proof.
  revert h tr. induction testers as [|t testers IH]; intros h tr; simpl.
  - by intros [= _ <-].
  - intros ([] & h1 & tr1 & tr2 & Hrelay & Hrest & ->)%bind_Ok_inv.
    apply relay_to_Ok_calls in Hrelay as ->. apply IH in Hrest as ->. done.
Qed.

(** A relay that returns sent the event to every tester once for each time
    the tester is listed, in the order of the list, and for each tester it
    set the items of the context in order, after the event was sent and
    before the tester executed. *)
Theorem successful_relay_calls self step e context h h' tr :
  _execute_tester self step e context h = Ok tt h' tr →
  tr = _testers self ≫= relay_calls e context.
Proof. apply relays_Ok_calls. Qed.

End RelayCalls.

Lemma successful_relay_calls_witness :
  ∃ h' tr,
    _execute_tester two_testers_harness None (mkEvent "start" []) [("active", VActive 1%positive)]
      (two_testers_heap []) = Ok tt h' tr ∧
    tr = [CallSend 2%positive (mkEvent "start" []);
          CallSetContext 2%positive "active" (VActive 1%positive);
          CallExecute 2%positive;
          CallSend 3%positive (mkEvent "start" []);
          CallSetContext 3%positive "active" (VActive 1%positive);
          CallExecute 3%positive].
Proof.
  pose (run := _execute_tester two_testers_harness None (mkEvent "start" [])
                 [("active", VActive 1%positive)] (two_testers_heap [])).
  assert (run = Ok tt (outcome_heap run empty_heap) (outcome_trace run)) as Hrun
    by (by vm_compute).
  exists (outcome_heap run empty_heap), (outcome_trace run). split; [exact Hrun|].
  exact (successful_relay_calls _ _ _ _ _ _ _ Hrun).
Defined.

(** ** Exceptions that are not assertion failures *)

Section OtherExceptions.
Context {Sim : Type} `{!Simulator Sim} `{!Formatter}.
Implicit Types (h : Heap Sim) (self : StateChartTester).

(** When the execution of a tester raises an exception that is not an
    [AssertionError], [_execute_tester] raises that exception as it is, with
    its arguments unchanged, and does not relay to the testers after it. *)
Theorem other_exception_is_not_rewritten self step e context pre tester post
    h h1 tr1 h1' tr2 kind args h2 tr3 :
  _testers self = pre ++ tester :: post →
  for_each pre (relay_to self step e context) h = Ok tt h1 tr1 →
  (Simulator_send tester e ;;
   for_each context (λ '(key, value), Simulator_set_context tester key value)) h1
    = Ok tt h1' tr2 →
  Simulator_execute tester h1' = Raise (OtherError kind args) h2 tr3 →
  _execute_tester self step e context h = Raise (OtherError kind args) h2 (tr1 ++ tr2 ++ tr3) ∧
  tr1 ++ tr2 ++ tr3 = (pre ++ [tester]) ≫= relay_calls e context.
Proof.
  intros Htesters Hpre Hdeliver Hexec.
  assert (relay_to self step e context tester h1
          = Raise (OtherError kind args) h2 (tr2 ++ tr3)) as Hrelay.
  { unfold relay_to.
    rewrite <- (bind_assoc (Simulator_send tester e)
                  (λ _, for_each context (λ '(key, value), Simulator_set_context tester key value))).
    rewrite (bind_ok _ _ _ _ _ _ Hdeliver). unfold try_except.
    rewrite (bind_raise _ _ _ _ _ _ Hexec). simpl. by rewrite app_nil_r. }
  split; [by eapply execute_tester_stops_at|].
  apply relays_Ok_calls in Hpre as ->.
  rewrite bind_app. f_equal. simpl. rewrite app_nil_r.
  apply bind_Ok_inv in Hdeliver as ([] & h3 & tr4 & tr5 & Hsend & Hset & ->).
  apply Simulator_send_inv in Hsend as [(eng & _ & [= _ ->])|[_ ?]]; [|done].
  apply overlay_calls_Ok in Hset as ->.
  pose proof (Simulator_execute_trace tester h1') as Htr. rewrite Hexec in Htr. subst tr3.
  done.
Qed.

End OtherExceptions.

Lemma other_exception_is_not_rewritten_witness :
  ∃ h2 tr,
    _execute_tester (Simulator0:=Crashing_Simulator) crashing_harness None
      (mkEvent "start" []) [] crashing_heap
      = Raise (OtherError "ZeroDivisionError" ["division by zero"]) h2 tr ∧
    tr = [CallSend 2%positive (mkEvent "start" []); CallExecute 2%positive].
Proof.
  pose (h := crashing_heap).
  pose (first := for_each [] (relay_to (Simulator0:=Crashing_Simulator) crashing_harness None
                                (mkEvent "start" []) []) h).
  pose (second := (Simulator_send (Simulator0:=Crashing_Simulator) 2%positive
                     (mkEvent "start" []) ;;
                   for_each [] (λ '(key, value), Simulator_set_context 2%positive key value))
                    (outcome_heap first h)).
  pose (third := Simulator_execute (Simulator0:=Crashing_Simulator) 2%positive
                   (outcome_heap second h)).
  destruct (other_exception_is_not_rewritten (Simulator0:=Crashing_Simulator)
              crashing_harness None (mkEvent "start" []) []
              [] 2%positive [] h
              (outcome_heap first h) (outcome_trace first)
              (outcome_heap second h) (outcome_trace second)
              "ZeroDivisionError" ["division by zero"]
              (outcome_heap third h) (outcome_trace third))
    as [Hraise Hcalls]; [by vm_compute..|].
  do 2 eexists. split; [exact Hraise|]. by rewrite Hcalls.
Defined.

(** ** The overlay of a context on a tester *)

Section Overlay.
Context {Sim : Type} `{!Simulator Sim} `{!Formatter}.
Implicit Types (h : Heap Sim) (self : StateChartTester).

Lemma dict_get_None key (context : Context) :
  key ∉ context.*1 → dict_get key context = None.
Proof.
  induction context as [|[k v] context IH]; [done|]. simpl.
  intros Hnot. rewrite bool_decide_eq_false_2.
  - apply IH. intros Hin. apply Hnot. by right.
  - intros ->. apply Hnot. by left.
Qed.

Lemma overlay_lookup (ctx : gmap string Value) (context : Context) key :
  NoDup context.*1 →
  overlay ctx context !! key
  = match dict_get key context with
    | Some v => Some v
    | None => ctx !! key
    end.
Proof.
  revert ctx. induction context as [|[k v] context IH]; intros ctx Hnodup; [done|].
  apply NoDup_cons in Hnodup as [Hk Hnodup]. unfold overlay. simpl.
  fold (overlay (<[k:=v]> ctx) context). rewrite IH by done.
  destruct (decide (k = key)) as [->|Hne].
  - rewrite bool_decide_eq_true_2 by done.
    by rewrite dict_get_None, lookup_insert_eq.
  - rewrite bool_decide_eq_false_2 by done. by rewrite lookup_insert_ne.
Qed.

Lemma overlay_loop t (context : Context) h eng ctx :
  engines h !! t = Some eng → evaluators h !! evaluator eng = Some ctx →
  ∃ h',
    for_each context (λ '(key, value), Simulator_set_context t key value) h
      = Ok tt h' (map (λ item, CallSetContext t item.1 item.2) context) ∧
    engines h' = engines h ∧
    evaluators h' !! evaluator eng = Some (overlay ctx context) ∧
    ∀ ev, ev ≠ evaluator eng → evaluators h' !! ev = evaluators h !! ev.
Proof.
  revert h ctx. induction context as [|[key value] context IH]; intros h ctx Heng Hctx.
  - exists h. by split_and!.
  - simpl. rewrite (bind_ok _ _ _ _ _ _ (Simulator_set_context_eq _ key value _ _ _ Heng Hctx)).
    edestruct (IH (mkHeap (engines h) (<[evaluator eng := <[key := value]> ctx]> (evaluators h))))
      as (h' & Hrun & Hengines & Hev & Hother); [exact Heng|simpl; apply lookup_insert_eq|].
    exists h'. rewrite Hrun. simpl. split_and!; [done|done|done|].
    intros ev Hne. rewrite (Hother ev Hne). simpl. by rewrite lookup_insert_ne.
Qed.

(** Setting the items of a context on a tester sets or replaces each key of
    the context in the context of the tester's evaluator and keeps its other
    keys; no simulator and no other evaluator changes, and no exception is
    raised. *)
Theorem overlay_sets_items t (context : Context) h eng ctx :
  NoDup context.*1 →
  engines h !! t = Some eng → evaluators h !! evaluator eng = Some ctx →
  ∃ h',
    for_each context (λ '(key, value), Simulator_set_context t key value) h
      = Ok tt h' (map (λ item, CallSetContext t item.1 item.2) context) ∧
    engines h' = engines h ∧
    (∀ key, evaluators h' !! evaluator eng ≫= (.!! key)
            = match dict_get key context with
              | Some v => Some v
              | None => ctx !! key
              end) ∧
    ∀ ev, ev ≠ evaluator eng → evaluators h' !! ev = evaluators h !! ev.
Proof.
  intros Hnodup Heng Hctx.
  destruct (overlay_loop t context h eng ctx Heng Hctx) as (h' & Hrun & Hengines & Hev & Hother).
  exists h'. split_and!; [done|done| |done].
  intros key. rewrite Hev. simpl. by apply overlay_lookup.
Qed.

End Overlay.

Lemma overlay_sets_items_witness :
  ∃ h',
    for_each goto_s2_context (λ '(key, value), Simulator_set_context 2%positive key value)
      overlaid_heap
      = Ok tt h' (map (λ item, CallSetContext 2%positive item.1 item.2) goto_s2_context) ∧
    evaluators h' !! 11%positive ≫= (.!! "consumed") = Some (VConsumed (Some "goto s2")) ∧
    evaluators h' !! 11%positive ≫= (.!! "count") = Some (VData "3") ∧
    evaluators h' !! 10%positive = evaluators overlaid_heap !! 10%positive.
Proof.
  destruct (overlay_sets_items 2%positive goto_s2_context overlaid_heap
              (tester_engine "t1" 11%positive [] false)
              (<["consumed" := VConsumed None]> (<["count" := VData "3"]> ∅)))
    as (h' & Hrun & _ & Hkeys & Hother).
  - apply (bool_decide_unpack (NoDup goto_s2_context.*1)). by vm_compute.
  - by vm_compute.
  - vm_compute. reflexivity.
  - exists h'. split; [exact Hrun|]. split; [|split].
    + rewrite Hkeys. by vm_compute.
    + rewrite Hkeys. by vm_compute.
    + by apply Hother.
Defined.

(** ** [stop] on a harness with one tester *)

Section StopOneTester.
Context {Sim : Type} `{!Simulator Sim} `{!Formatter}.
Implicit Types (h : Heap Sim) (self : StateChartTester).

Lemma sends_to_relay_calls_same e context t :
  sends_to t (relay_calls e context t) = [e].
Proof.
  unfold relay_calls, sends_to. simpl. rewrite bool_decide_eq_true_2 by done. f_equal.
  rewrite omap_app. simpl. rewrite app_nil_r.
  induction context as [|item context IH]; [done|]. simpl. exact IH.
Qed.

Lemma sends_to_relay_calls_other e context t t' :
  t' ≠ t → sends_to t (relay_calls e context t') = [].
Proof.
  intros Hne. unfold relay_calls, sends_to. simpl. rewrite bool_decide_eq_false_2 by done.
  rewrite omap_app. simpl. rewrite app_nil_r.
  induction context as [|item context IH]; [done|]. simpl. exact IH.
Qed.

(** With exactly one tester, [stop] relays the event [stop] to it once, with
    a context built without a step, and then raises an [AssertionError]
    that names the tester's statechart and its configuration exactly when the
    tester is running after that relay; when the relay itself raises, [stop]
    raises that exception. *)
Theorem stop_with_one_tester self t h :
  _testers self = [t] →
  (∀ h1 tr eng,
     (context <- _create_context self None ;;
      _execute_tester self None (mkEvent "stop" []) context) h = Ok tt h1 tr →
     engines h1 !! t = Some eng →
     sends_to t tr = [mkEvent "stop" []] ∧
     stop self h =
       if sim_running (core eng)
       then Raise (AssertionError [not_final_message (sc_name (_statechart eng))
                                     (sim_configuration (core eng))]) h1 tr
       else Ok tt h1 tr) ∧
  (∀ err h1 tr,
     (context <- _create_context self None ;;
      _execute_tester self None (mkEvent "stop" []) context) h = Raise err h1 tr →
     stop self h = Raise err h1 tr).
Proof.
  intros Htesters. split.
  - intros h1 tr eng Hrelay Heng.
    apply bind_Ok_inv in Hrelay as (context & h0 & tr0 & tr1 & Hcontext & Hrelay & ->).
    split.
    { assert (tr0 = []) as ->.
      { unfold _create_context, bind, get_engine in Hcontext.
        destruct (engines h !! _simulator self); [|done]. by injection Hcontext as _ _ <-. }
      apply relays_Ok_calls in Hrelay as ->. rewrite Htesters. simpl.
      rewrite app_nil_r. apply sends_to_relay_calls_same. }
    unfold stop. rewrite (bind_ok _ _ _ _ _ _ Hcontext), Htesters. simpl for_each.
    rewrite bind_assoc, (bind_ok _ _ _ _ _ _ Hrelay).
    unfold Simulator_running, Simulator_name, Simulator_configuration, bind, get_engine, ret, raise.
    rewrite Heng. simpl. destruct (sim_running (core eng)); simpl.
    + rewrite Heng. simpl. rewrite Heng. simpl. by rewrite !app_nil_r.
    + by rewrite !app_nil_r.
  - intros err h1 tr Hrelay. unfold stop.
    apply bind_Raise_inv in Hrelay
      as [Hcontext|(context & h0 & tr0 & tr1 & Hcontext & Hrelay & ->)].
    + by rewrite (bind_raise _ _ _ _ _ _ Hcontext).
    + rewrite (bind_ok _ _ _ _ _ _ Hcontext), Htesters. simpl for_each.
      by rewrite bind_assoc, (bind_raise _ _ _ _ _ _ Hrelay).
Qed.

End StopOneTester.

Lemma stop_with_one_tester_witness :
  ∃ msg h1 tr,
    stop one_tester_harness one_running_tester_heap = Raise (AssertionError [msg]) h1 tr ∧
    msg = not_final_message "t1" ["watching"] ∧
    sends_to 2%positive tr = [mkEvent "stop" []].
Proof.
  pose (self := one_tester_harness). pose (h := one_running_tester_heap).
  pose (relay := (context <- _create_context self None ;;
                  _execute_tester self None (mkEvent "stop" []) context) h).
  destruct (stop_with_one_tester self 2%positive h eq_refl) as [Hok _].
  destruct (Hok (outcome_heap relay h) (outcome_trace relay)
              (mkEngine (mkStateChart "t1") 11%positive
                 (mkScripted [mkEvent "stop" []] [] [] true ["watching"])))
    as [Hsends Hstop]; [by vm_compute..|].
  do 3 eexists. split; [exact Hstop|]. split; [reflexivity|exact Hsends].
Defined.

(** ** The construction of a harness *)

Section Construction.
Context {Sim : Type} `{!Simulator Sim} `{!Formatter}.
Implicit Types (h : Heap Sim) (self : StateChartTester).

Lemma send_loop simulator (events : list Event) h eng :
  engines h !! simulator = Some eng →
  ∃ h',
    for_each events (λ ev, Simulator_send simulator ev) h
      = Ok tt h' (map (CallSend simulator) events) ∧
    engines h' !! simulator
      = Some (mkEngine (_statechart eng) (evaluator eng)
                (foldl (λ c ev, sim_send ev c) (core eng) events)) ∧
    (∀ l, l ≠ simulator → engines h' !! l = engines h !! l) ∧
    evaluators h' = evaluators h.
Proof.
  revert h eng. induction events as [|ev events IH]; intros h eng Heng.
  - exists h. split_and!; [done| |done|done]. rewrite Heng. by destruct eng.
  - simpl. rewrite (bind_ok _ _ _ _ _ _ (Simulator_send_eq simulator ev h eng Heng)).
    edestruct (IH (mkHeap (<[simulator := mkEngine (_statechart eng) (evaluator eng)
                                            (sim_send ev (core eng))]> (engines h))
                          (evaluators h)))
      as (h' & Hrun & Hsim & Hother & Hevs); [simpl; apply lookup_insert_eq|].
    exists h'. rewrite Hrun. simpl. split_and!; [done|done| |done].
    intros l Hne. rewrite (Hother l Hne). simpl. by rewrite lookup_insert_ne.
Qed.

(** The constructor relays [start] to the testers first and then sends the
    events of the scenario to the simulator, in order and without executing
    any: it returns the harness with the simulator, testers and events it was
    given.  When the relay of [start] raises, the constructor raises that
    exception and the simulator is sent nothing. *)
Theorem constructor_sends_scenario_after_start simulator testers events h context :
  _create_context (mkStateChartTester simulator testers events) None h = Ok context h [] →
  (∀ h1 tr1 eng,
     _execute_tester (mkStateChartTester simulator testers events) None
       (mkEvent "start" []) context h = Ok tt h1 tr1 →
     engines h1 !! simulator = Some eng →
     ∃ h',
       StateChartTester__init__ simulator testers events h
         = Ok (mkStateChartTester simulator testers events) h'
              ((testers ≫= relay_calls (mkEvent "start" []) context)
               ++ map (CallSend simulator) events) ∧
       engines h' !! simulator
         = Some (mkEngine (_statechart eng) (evaluator eng)
                   (foldl (λ c ev, sim_send ev c) (core eng) events)) ∧
       (∀ l, l ≠ simulator → engines h' !! l = engines h1 !! l) ∧
       evaluators h' = evaluators h1) ∧
  (∀ err h1 tr1,
     _execute_tester (mkStateChartTester simulator testers events) None
       (mkEvent "start" []) context h = Raise err h1 tr1 →
     StateChartTester__init__ simulator testers events h = Raise err h1 tr1).
Proof.
  intros Hcontext. split.
  - intros h1 tr1 eng Hrelay Heng.
    destruct (send_loop simulator events h1 eng Heng) as (h' & Hsend & Hsim & Hother & Hevs).
    exists h'. split; [|done].
    unfold StateChartTester__init__.
    rewrite (bind_ok _ _ _ _ _ _ Hcontext), (bind_ok _ _ _ _ _ _ Hrelay). simpl _events.
    simpl _simulator. rewrite (bind_ok _ _ _ _ _ _ Hsend). simpl.
    apply relays_Ok_calls in Hrelay as ->. simpl. by rewrite !app_nil_r.
  - intros err h1 tr1 Hrelay. unfold StateChartTester__init__.
    by rewrite (bind_ok _ _ _ _ _ _ Hcontext), (bind_raise _ _ _ _ _ _ Hrelay).
Qed.

End Construction.

Lemma constructor_sends_scenario_after_start_witness :
  ∃ h' tr,
    StateChartTester__init__ 1%positive [2; 3]%positive [goto_s2; goto_s2] (two_testers_heap [])
      = Ok (mkStateChartTester 1%positive [2; 3]%positive [goto_s2; goto_s2]) h' tr ∧
    sends_to 1%positive tr = [goto_s2; goto_s2] ∧
    (inbox ∘ core) <$> engines h' !! 1%positive = Some [goto_s2; goto_s2].
Proof.
  pose (self := mkStateChartTester 1%positive [2; 3]%positive [goto_s2; goto_s2]).
  pose (h := two_testers_heap []).
  pose (context := [ ("entered", VEntered None); ("exited", VExited None);
                     ("active", VActive 1%positive); ("processed", VProcessed None);
                     ("consumed", VConsumed None); ("context", VContext 10%positive) ]).
  pose (relay := _execute_tester self None (mkEvent "start" []) context h).
  destruct (constructor_sends_scenario_after_start 1%positive [2; 3]%positive
              [goto_s2; goto_s2] h context) as [Hok _]; [by vm_compute|].
  destruct (Hok (outcome_heap relay h) (outcome_trace relay) (subject_engine []))
    as (h' & Hinit & Hsim & _); [by vm_compute..|].
  exists h'. eexists. split; [exact Hinit|]. split; [by vm_compute|].
  etrans; [exact (f_equal (fmap (inbox ∘ core)) Hsim)|]. by vm_compute.
Defined.

(** ** The events of the steps *)

Section StepEvents.
Context {Sim : Type} `{!Simulator Sim} `{!Formatter}.
Implicit Types (h : Heap Sim) (self : StateChartTester).

Lemma sends_to_app t tr1 tr2 : sends_to t (tr1 ++ tr2) = sends_to t tr1 ++ sends_to t tr2.
Proof. apply omap_app. Qed.

Lemma sends_to_relays_absent e context t (testers : list loc) :
  t ∉ testers → sends_to t (testers ≫= relay_calls e context) = [].
Proof.
  induction testers as [|t' testers IH]; [done|]. intros Hnot. rewrite bind_cons.
  rewrite sends_to_app, sends_to_relay_calls_other, IH; [done| |].
  - intros Hin. apply Hnot. by right.
  - intros ->. apply Hnot. by left.
Qed.

Lemma sends_to_relays_once e context t (testers : list loc) :
  NoDup testers → t ∈ testers → sends_to t (testers ≫= relay_calls e context) = [e].
Proof.
  induction testers as [|t' testers IH]; intros Hnodup Hin.
  - by apply elem_of_nil in Hin.
  - apply NoDup_cons in Hnodup as [Hfresh Hnodup]. rewrite bind_cons, sends_to_app.
    apply elem_of_cons in Hin as [->|Hin].
    + by rewrite sends_to_relay_calls_same, sends_to_relays_absent.
    + rewrite sends_to_relay_calls_other, IH; [done..|]. by intros ->.
Qed.

Lemma execute_once_Some_calls self h st h' tr :
  execute_once self h = Ok (Some st) h' tr →
  ∃ context,
    tr = CallExecuteOnce (_simulator self) (Some st)
         :: (_testers self ≫= relay_calls (mkEvent "step" []) context).
Proof.
  intros (h1 & tr2 & _ & Hrelay & ->)%execute_once_Some.
  apply bind_Ok_inv in Hrelay as (context & h2 & tr3 & tr4 & Hcontext & Hrelay & ->).
  exists context. f_equal.
  apply relays_Ok_calls in Hrelay as ->.
  unfold _create_context, bind, get_engine in Hcontext.
  destruct (engines h1 !! _simulator self); [|done]. by injection Hcontext as _ _ <-.
Qed.

(** While [execute_once] returns steps, a tester listed once is sent exactly
    one event [step] for each step, and nothing else; a simulator that is not
    a tester (the subject, normally) is sent nothing. *)
Theorem one_step_event_per_step self h steps h' tr t :
  run_steps self h steps h' tr →
  NoDup (_testers self) →
  (t ∈ _testers self → sends_to t tr = replicate (length steps) (mkEvent "step" [])) ∧
  (t ∉ _testers self → sends_to t tr = []).
Proof.
  intros Hrun Hnodup.
  induction Hrun as [|h st h1 tr1 steps h2 tr2 Hstep _ [IHin IHout]]; [done|].
  apply execute_once_Some_calls in Hstep as (context & ->).
  split; intros Ht; rewrite sends_to_app.
  - rewrite (IHin Ht).
    change (sends_to t (?c :: ?l)) with (sends_to t l).
    by rewrite sends_to_relays_once.
  - rewrite (IHout Ht).
    change (sends_to t (?c :: ?l)) with (sends_to t l).
    by rewrite sends_to_relays_absent.
Qed.

End StepEvents.

Lemma one_step_event_per_step_witness :
  sends_to 3%positive (collected_trace 3 two_testers_harness
                         (two_testers_heap [step_initial; step_goto_s2; step_eventless]))
  = [mkEvent "step" []; mkEvent "step" []; mkEvent "step" []].
Proof.
  pose (self := two_testers_harness).
  pose (h := two_testers_heap [step_initial; step_goto_s2; step_eventless]).
  assert (run_steps self h [step_initial; step_goto_s2; step_eventless]
            (collected_heap 3 self h) (collected_trace 3 self h)) as Hrun.
  { apply (collect_run_steps 3). by vm_compute. }
  assert (NoDup (_testers self)) as Hnodup.
  { apply (bool_decide_unpack (NoDup (_testers self))). by vm_compute. }
  destruct (one_step_event_per_step self h _ _ _ 3%positive Hrun Hnodup) as [Hin _].
  apply Hin. apply list_elem_of_further, list_elem_of_here.
Defined.

(** ** What [execute] returns and raises *)

Section ExecuteOutcomes.
Context {Sim : Type} `{!Simulator Sim} `{!Formatter}.
Implicit Types (h : Heap Sim) (self : StateChartTester).

Lemma execute_loop_raises self max_steps h steps h' tr err h'' tr' :
  run_steps self h steps h' tr →
  execute_once self h' = Raise err h'' tr' →
  ∀ fuel acc i,
    max_steps ≤ 0 ∨ i + Z.of_nat (length steps) < max_steps →
    (length steps ≤ fuel)%nat →
    (step <- execute_once self ;; execute_loop fuel self max_steps acc i step) h
      = Raise err h'' (tr ++ tr').
Proof.
  intros Hrun Hraise.
  induction Hrun as [|h st h1 tr1 steps h2 tr2 Hstep Hrun IH];
    intros fuel acc i Hbound Hfuel.
  - by rewrite (bind_raise _ _ _ _ _ _ Hraise).
  - rewrite (bind_ok _ _ _ _ _ _ Hstep). cbn [length] in Hbound, Hfuel.
    rewrite execute_loop_Some.
    replace ((0 <? max_steps) && (i + 1 =? max_steps)) with false.
    2:{ symmetry. apply andb_false_iff.
        destruct Hbound; [left; apply Z.ltb_ge|right; apply Z.eqb_neq]; lia. }
    destruct fuel as [|fuel]; [lia|].
    rewrite (IH Hraise fuel (acc ++ [st]) (i + 1)); [|lia|lia].
    simpl. by rewrite <- !app_assoc.
Qed.

(** When a call of [execute_once] raises before the bound is reached (an
    assertion failure of a tester, a tester that is not final at the end, or
    any other exception), [execute] raises that exception: the steps
    collected before it are not returned. *)
Theorem execute_raises_what_execute_once_raises self max_steps h steps h' tr err h'' tr' :
  run_steps self h steps h' tr →
  execute_once self h' = Raise err h'' tr' →
  max_steps ≤ 0 ∨ Z.of_nat (length steps) < max_steps →
  ∀ fuel, (length steps ≤ fuel)%nat →
    execute fuel self max_steps h = Raise err h'' (tr ++ tr').
Proof.
  intros Hrun Hraise Hbound fuel Hfuel. unfold execute.
  apply (execute_loop_raises _ _ _ _ _ _ _ _ _ Hrun Hraise fuel [] 0); [|done].
  destruct Hbound; [by left|right; lia].
Qed.

Lemma execute_loop_inv self max_steps :
  ∀ fuel acc i h res h' tr,
    (0 < max_steps → i < max_steps) →
    (step <- execute_once self ;; execute_loop fuel self max_steps acc i step) h
      = Ok res h' tr →
    ∃ steps h1 tr1,
      res = acc ++ steps ∧ run_steps self h steps h1 tr1 ∧
      ((0 < max_steps ∧ i + Z.of_nat (length steps) = max_steps ∧ h' = h1 ∧ tr = tr1) ∨
       (∃ tr2, execute_once self h1 = Ok None h' tr2 ∧ tr = tr1 ++ tr2 ∧
               (max_steps ≤ 0 ∨ i + Z.of_nat (length steps) < max_steps))).
Proof.
  induction fuel as [|fuel IH]; intros acc i h res h' tr Hi Hrun;
    apply bind_Ok_inv in Hrun as ([st|] & h1 & tr1 & tr2 & Honce & Hloop & ->);
    rewrite ?execute_loop_None, ?execute_loop_Some in Hloop.
  - destruct ((0 <? max_steps) && (i + 1 =? max_steps)) eqn:Hbound; [|done].
    apply andb_true_iff in Hbound as [Hpos%Z.ltb_lt Heq%Z.eqb_eq].
    injection Hloop as <- <- <-.
    exists [st], h1, (tr1 ++ []). split; [done|]. split; [by repeat econstructor|].
    left. cbn [length]. split_and!; [done|lia|done|done].
  - injection Hloop as <- <- <-. exists [], h, []. rewrite !app_nil_r.
    split; [done|]. split; [constructor|]. right. exists tr1. split_and!; [done|done|].
    cbn [length]. lia.
  - destruct ((0 <? max_steps) && (i + 1 =? max_steps)) eqn:Hbound.
    + apply andb_true_iff in Hbound as [Hpos%Z.ltb_lt Heq%Z.eqb_eq].
      injection Hloop as <- <- <-.
      exists [st], h1, (tr1 ++ []). split; [done|]. split; [by repeat econstructor|].
      left. cbn [length]. split_and!; [done|lia|done|done].
    + apply andb_false_iff in Hbound.
      apply IH in Hloop as (steps & h2 & tr3 & -> & Hsteps & Hend).
      2:{ intros Hpos. specialize (Hi Hpos).
          destruct Hbound as [Hb%Z.ltb_ge|Hb%Z.eqb_neq]; lia. }
      exists (st :: steps), h2, (tr1 ++ tr3). rewrite <- app_assoc.
      split; [done|]. split; [by econstructor|]. cbn [length].
      destruct Hend as [(Hpos & Heq & -> & ->)|(tr4 & Hnone & -> & Hcases)].
      * left. split_and!; [done|lia|done|done].
      * right. exists tr4. rewrite <- app_assoc. split_and!; [done|done|]. lia.
  - injection Hloop as <- <- <-. exists [], h, []. rewrite !app_nil_r.
    split; [done|]. split; [constructor|]. right. exists tr1. split_and!; [done|done|].
    cbn [length]. lia.
Qed.

(** When [execute] returns, the steps it returns are those that consecutive
    calls of [execute_once] returned, and either [max_steps] is positive and
    that many steps were collected, or the call of [execute_once] that
    followed returned no step; so with a positive [max_steps] it never
    returns more than [max_steps] steps. *)
Theorem execute_returns_at_most_max_steps fuel self max_steps h steps h' tr :
  execute fuel self max_steps h = Ok steps h' tr →
  (∃ h1 tr1,
     run_steps self h steps h1 tr1 ∧
     ((0 < max_steps ∧ Z.of_nat (length steps) = max_steps ∧ h' = h1 ∧ tr = tr1) ∨
      (∃ tr2, execute_once self h1 = Ok None h' tr2 ∧ tr = tr1 ++ tr2))) ∧
  (0 < max_steps → Z.of_nat (length steps) ≤ max_steps).
Proof.
  intros Hrun. unfold execute in Hrun.
  apply execute_loop_inv in Hrun as (steps' & h1 & tr1 & -> & Hsteps & Hend); [|done].
  simpl. split.
  - exists h1, tr1. split; [done|].
    destruct Hend as [(Hpos & Heq & -> & ->)|(tr2 & Hnone & -> & _)].
    + left. split_and!; [done|lia|done|done].
    + right. by exists tr2.
  - intros Hpos. destruct Hend as [(_ & Heq & _)|(tr2 & _ & _ & Hcases)]; lia.
Qed.

End ExecuteOutcomes.

Lemma execute_raises_what_execute_once_raises_witness :
  ∃ msg h'' tr,
    execute 2 three_testers_harness (-1) (three_testers_heap [step_initial; step_goto_s2])
      = Raise (AssertionError [msg]) h'' tr ∧
    sends_to 4%positive tr = [].
Proof.
  pose (self := three_testers_harness).
  pose (h := three_testers_heap [step_initial; step_goto_s2]).
  pose (failed := execute_once self h).
  assert (∃ msg, execute_once self h
                 = Raise (AssertionError [msg]) (outcome_heap failed h) (outcome_trace failed))
    as [msg Hraise] by (eexists; vm_compute; reflexivity).
  assert (-1 ≤ 0) as Hunbounded by done.
  pose proof (execute_raises_what_execute_once_raises self (-1) h [] h [] _ _ _
                (run_steps_nil self h) Hraise (or_introl Hunbounded) 2%nat (Nat.le_0_l 2))
    as Hexecute.
  exists msg. do 2 eexists. split; [exact Hexecute|]. by vm_compute.
Defined.

Lemma execute_returns_at_most_max_steps_witness :
  ∃ steps h' tr,
    execute 5 two_testers_harness 2 (two_testers_heap five_steps) = Ok steps h' tr ∧
    Z.of_nat (length steps) ≤ 2.
Proof.
  pose (run := execute 5 two_testers_harness 2 (two_testers_heap five_steps)).
  assert (run = Ok [step_initial; step_goto_s2] (outcome_heap run empty_heap)
                   (outcome_trace run)) as Hrun by (by vm_compute).
  destruct (execute_returns_at_most_max_steps _ _ _ _ _ _ _ Hrun) as [_ Hbound].
  do 3 eexists. split; [exact Hrun|]. by apply Hbound.
Defined.

(** ** The calls a harness makes *)

Section HarnessCalls.
Context {Sim : Type} `{!Simulator Sim} `{!Formatter}.
Implicit Types (h : Heap Sim) (self : StateChartTester) (Q : Call → Prop).

#[export] Instance traced_composable Q : Composable (Sim:=Sim) (traced Q).
Proof.
  split; unfold traced.
  - intros h. constructor.
  - intros h h1 h2 tr1 tr2 H1 H2. by apply Forall_app.
Qed.

Lemma traced_send Q t e : Q (CallSend t e) → respects (traced Q) (Simulator_send t e).
Proof.
  intros HQ h. destruct (Simulator_send_inv t e h _ eq_refl) as [(eng & _ & ->)|[_ ->]]; [|done].
  by repeat constructor.
Qed.

Lemma traced_set_context Q t key value :
  Q (CallSetContext t key value) →
  respects (Sim:=Sim) (traced Q) (Simulator_set_context t key value).
Proof.
  intros HQ h.
  destruct (Simulator_set_context t key value h) as [[] h' tr|err h' tr| |] eqn:Hset; try done.
  - apply Simulator_set_context_Ok in Hset as ->. by repeat constructor.
  - by apply Simulator_set_context_no_raise in Hset.
Qed.

Lemma traced_execute Q t : Q (CallExecute t) → respects (traced Q) (Simulator_execute t).
Proof.
  intros HQ h. pose proof (Simulator_execute_trace t h) as Htr.
  destruct (Simulator_execute t h); try done; subst; by repeat constructor.
Qed.

Lemma traced_execute_once Q t :
  (∀ r, Q (CallExecuteOnce t r)) → respects (traced Q) (Simulator_execute_once t).
Proof.
  intros HQ h.
  unfold Simulator_execute_once, bind, get_engine, get_context, get_heap, set_core,
    put_context, emit, ret, raise.
  destruct (engines h !! t) as [eng|] eqn:Heng; [|done]. simpl.
  destruct (evaluators h !! evaluator eng) as [ctx|]; [|done]. simpl.
  destruct (sim_execute_once h (core eng) ctx) as [[c' ctx'] r]. rewrite Heng. simpl.
  destruct r as [err|step]; simpl; [constructor|by repeat constructor].
Qed.

Lemma traced_execute_tester Q self step e context :
  (∀ t, t ∈ _testers self →
        Q (CallSend t e) ∧ Q (CallExecute t) ∧ ∀ key value, Q (CallSetContext t key value)) →
  respects (traced Q) (_execute_tester self step e context).
Proof.
  intros HQ. apply respects_for_each; [apply _|]. intros t Ht.
  destruct (HQ t Ht) as (Hsend & Hexec & Hset). unfold relay_to.
  apply respects_bind; [apply _|by apply traced_send|intros _].
  apply respects_bind; [apply _| |intros _].
  - apply respects_for_each; [apply _|]. intros [key value] _. by apply traced_set_context.
  - apply respects_try_except; [apply _| |].
    + apply respects_bind; [apply _|by apply traced_execute|].
      intros _. apply respects_ret, _.
    + intros [args|kind args]; [|apply respects_raise, _].
      apply respects_bind; [apply _|apply respects_failure_message, _|].
      intros msg. apply respects_raise, _.
Qed.

Lemma traced_execute_once_harness self :
  respects (traced (harness_call self)) (execute_once self).
Proof.
  unfold execute_once.
  apply respects_bind; [apply _|by apply traced_execute_once|intros step].
  apply respects_bind; [apply _| |intros _; apply respects_ret, _].
  destruct step as [st|].
  - apply respects_bind; [apply _|apply respects_create_context, _|intros context].
    apply traced_execute_tester. intros t Ht. simpl.
    split; [split; [done|by left]|by split].
  - unfold stop.
    apply respects_bind; [apply _|apply respects_create_context, _|intros context].
    apply respects_for_each; [apply _|]. intros tester _.
    apply respects_bind; [apply _| |intros _].
    { apply traced_execute_tester. intros t Ht. simpl.
      split; [split; [done|by right]|by split]. }
    apply respects_bind; [apply _|apply respects_Simulator_running, _|intros running].
    destruct running; [|apply respects_ret, _].
    apply respects_bind; [apply _|apply respects_Simulator_name, _|intros name].
    apply respects_bind; [apply _|apply respects_Simulator_configuration, _|intros conf].
    apply respects_raise, _.
Qed.

(** Whatever [execute] does, whether it returns or raises: it calls
    [execute_once] on the simulator of the harness only, and [send], the
    setting of context items and [execute] on testers only; the only events it
    sends are [step] and [stop].  So a simulator that is not among the testers
    is never sent an event, never given a context item and never run by
    [execute()]. *)
Theorem execute_makes_harness_calls_only fuel self max_steps h :
  match execute fuel self max_steps h with
  | Ok _ _ tr | Raise _ _ tr =>
      Forall (harness_call self) tr ∧
      (_simulator self ∉ _testers self →
       ∀ c, c ∈ tr → call_target c = _simulator self →
            ∃ r, c = CallExecuteOnce (_simulator self) r)
  | Stuck | OutOfFuel => True
  end.
Proof.
  assert (respects (traced (harness_call self)) (execute fuel self max_steps)) as Hr.
  { unfold execute. apply respects_bind; [apply _|apply traced_execute_once_harness|].
    generalize (@nil MacroStep) as acc. generalize 0 as i.
    induction fuel as [|fuel IH]; intros i acc [st|];
      rewrite ?execute_loop_None, ?execute_loop_Some; try apply respects_ret, _;
      destruct ((0 <? max_steps) && (i + 1 =? max_steps)); try apply respects_ret, _.
    - by intros ?.
    - apply respects_bind; [apply _|apply traced_execute_once_harness|]. apply IH. }
  specialize (Hr h).
  assert (∀ tr, Forall (harness_call self) tr →
                _simulator self ∉ _testers self →
                ∀ c, c ∈ tr → call_target c = _simulator self →
                     ∃ r, c = CallExecuteOnce (_simulator self) r) as Hsubject.
  { intros tr Hall Hnot c Hc Htarget. rewrite Forall_forall in Hall. specialize (Hall c Hc).
    destruct c as [l e|l key value|l|l r]; simpl in *; subst.
    - by destruct Hall.
    - done.
    - done.
    - by exists r. }
  destruct (execute fuel self max_steps h); try done; split; try done; by apply Hsubject.
Qed.

End HarnessCalls.

Lemma execute_makes_harness_calls_only_witness :
  ∃ h' tr,
    execute 3 two_testers_harness (-1)
      (two_testers_heap [step_initial; step_goto_s2; step_eventless])
      = Ok [step_initial; step_goto_s2; step_eventless] h' tr ∧
    Forall (harness_call two_testers_harness) tr.
Proof.
  pose (h := two_testers_heap [step_initial; step_goto_s2; step_eventless]).
  pose (run := execute 3 two_testers_harness (-1) h).
  assert (execute 3 two_testers_harness (-1) h
          = Ok [step_initial; step_goto_s2; step_eventless] (outcome_heap run h)
               (outcome_trace run)) as Hrun by (by vm_compute).
  pose proof (execute_makes_harness_calls_only 3 two_testers_harness (-1) h) as Hcalls.
  rewrite Hrun in Hcalls. destruct Hcalls as [Hcalls _].
  do 2 eexists. split; [exact Hrun|exact Hcalls].
Defined.

(** ** The order of the tests of a configuration *)

Section TestOrder.
Context {Sim : Type} `{!Simulator Sim} `{!Formatter}.
Implicit Types (h : Heap Sim) (self : StateChartTester).

Lemma default_constructor_statechart statechart h :
  ∃ l h',
    TesterConfiguration.Simulator__init__ statechart None h = Ok l h' [] ∧
    allocated h [l] h' ∧
    _statechart <$> engines h' !! l = Some statechart.
Proof.
  destruct (default_constructor_allocates statechart h) as (l & h' & Hnew & Halloc).
  exists l, h'. split; [done|]. split; [done|].
  unfold TesterConfiguration.Simulator__init__ in Hnew. injection Hnew as <- <-.
  simpl. by rewrite lookup_insert_eq.
Qed.

Lemma build_testers_statecharts
    (tests : list (StateChart * option loc * option (SimulatorClass Sim))) :
  Forall (λ test, test.1.2 = None ∧ test.2 = None) tests →
  ∀ testers h, ∃ new h',
    TesterConfiguration.build_testers tests testers h = Ok (testers ++ new) h' [] ∧
    allocated h new h' ∧
    Forall2 (λ l test, _statechart <$> engines h' !! l = Some test.1.1) new tests.
Proof.
  induction 1 as [|[[statechart evaluator] cls] tests [Hev Hcls] _ IH]; intros testers h.
  - exists [], h. simpl. rewrite app_nil_r. split; [done|]. split; [apply allocated_nil|done].
  - simpl in Hev, Hcls. subst. simpl.
    destruct (default_constructor_statechart statechart h) as (l & h1 & Hnew & Halloc & Hsc).
    destruct (IH (testers ++ [l]) h1) as (new & h2 & Hrest & Halloc2 & Hall).
    exists (l :: new), h2. split; [|split].
    + unfold TesterConfiguration.instantiate. rewrite (bind_ok _ _ _ _ _ _ Hnew), Hrest.
      simpl. by rewrite <- app_assoc.
    + by apply (allocated_app h [l] h1 new h2).
    + constructor; [|done]. simpl. destruct Halloc2 as (_ & Hold & _).
      rewrite Hold; [done|]. destruct (engines h1 !! l); [done|]. by simpl in Hsc.
Qed.

(** With default simulators, the harness built from a configuration has the
    events it was given, a simulator for the statechart of the configuration,
    and one tester for each test, in the order the tests were added, each
    for the statechart of its test. *)
Theorem build_tester_keeps_test_order (cfg : TesterConfiguration.t Sim) events h cfg' self h' tr :
  all_default cfg →
  TesterConfiguration.build_tester cfg events h = Ok (cfg', self) h' tr →
  _events self = events ∧
  _statechart <$> engines h' !! _simulator self = Some (TesterConfiguration._statechart cfg) ∧
  Forall2 (λ l test, _statechart <$> engines h' !! l = Some test.1.1)
    (_testers self) (TesterConfiguration._statechart_tests cfg).
Proof.
  intros (Hev & Hcls & Htests) Hbuild. unfold TesterConfiguration.build_tester in Hbuild.
  rewrite Hev, Hcls in Hbuild. simpl in Hbuild.
  destruct (default_constructor_statechart (TesterConfiguration._statechart cfg) h)
    as (simulator & h1 & Hnew & Halloc1 & Hsc1).
  rewrite (bind_ok _ _ _ _ _ _ Hnew) in Hbuild.
  destruct (build_testers_statecharts _ Htests [] h1)
    as (testers & h2 & Hnew2 & Halloc2 & Hall).
  rewrite (bind_ok _ _ _ _ _ _ Hnew2), !prepend_nil in Hbuild.
  apply bind_Ok_inv in Hbuild as (harness & h3 & tr3 & tr4 & Hinit & Hret & _).
  injection Hret as _ <- <- _. change ([] ++ testers) with testers in Hinit.
  pose proof (init_returns_self _ _ _ _ _ _ _ Hinit) as ->.
  pose proof (respects_init simulator testers events h2) as Hto. rewrite Hinit in Hto.
  assert (∀ l, _statechart <$> engines h3 !! l = _statechart <$> engines h2 !! l) as Hshape.
  { intros l. pose proof (touches_shape _ _ _ Hto l) as Hl.
    destruct (engines h3 !! l), (engines h2 !! l); simpl in *; congruence. }
  simpl. split; [done|]. split.
  - rewrite Hshape. destruct Halloc2 as (_ & Hold & _).
    rewrite Hold; [done|]. destruct (engines h1 !! simulator); [done|]. by simpl in Hsc1.
  - eapply Forall2_impl; [exact Hall|]. intros l test Hl. by rewrite Hshape.
Qed.

End TestOrder.

Lemma build_tester_keeps_test_order_witness :
  ∃ cfg' h' tr,
    TesterConfiguration.build_tester default_configuration [goto_s2] empty_heap
      = Ok (cfg', mkStateChartTester 1%positive [2; 3]%positive [goto_s2]) h' tr ∧
    _statechart <$> engines h' !! 2%positive = Some (mkStateChart "t1") ∧
    _statechart <$> engines h' !! 3%positive = Some (mkStateChart "t2").
Proof.
  pose (cfg := default_configuration).
  pose (built := TesterConfiguration.build_tester cfg [goto_s2] empty_heap).
  assert (TesterConfiguration.build_tester cfg [goto_s2] empty_heap
          = Ok (cfg, mkStateChartTester 1%positive [2; 3]%positive [goto_s2])
               (outcome_heap built empty_heap) (outcome_trace built)) as Hbuilt
    by (by vm_compute).
  assert (all_default cfg) as Hdefault.
  { split; [done|]. split; [done|]. by repeat constructor. }
  destruct (build_tester_keeps_test_order cfg [goto_s2] empty_heap _ _ _ _ Hdefault Hbuilt)
    as (_ & _ & Hall).
  do 3 eexists. split; [exact Hbuilt|].
  apply Forall2_cons_1 in Hall as [H2 Hall]. apply Forall2_cons_1 in Hall as [H3 _].
  by split.
Defined.

(** ** One call of [execute_once] *)

Section OneCall.
Context {Sim : Type} `{!Simulator Sim} `{!Formatter}.
Implicit Types (h : Heap Sim) (self : StateChartTester).

Lemma Simulator_execute_once_Raise t h err h1 tr :
  Simulator_execute_once t h = Raise err h1 tr → tr = [].
Proof.
  unfold Simulator_execute_once, bind, get_engine, get_context, get_heap, set_core,
    put_context, emit, ret, raise.
  destruct (engines h !! t) as [eng|] eqn:Heng; [|done]. simpl.
  destruct (evaluators h !! evaluator eng) as [ctx|]; [|done]. simpl.
  destruct (sim_execute_once h (core eng) ctx) as [[c' ctx'] r]. rewrite Heng. simpl.
  destruct r as [err'|step']; simpl; [|done]. by intros [= _ _ <-].
Qed.

Lemma relay_or_stop_never_advances self (step : option MacroStep) :
  respects (traced (λ c, ∀ l r, c ≠ CallExecuteOnce l r))
    (match step with
     | Some st =>
         context <- _create_context self step ;;
         _execute_tester self step (mkEvent "step" []) context
     | None => stop self
     end).
Proof.
  destruct step as [st|].
  - apply respects_bind; [apply _|apply respects_create_context, _|intros context].
    by apply traced_execute_tester.
  - unfold stop.
    apply respects_bind; [apply _|apply respects_create_context, _|intros context].
    apply respects_for_each; [apply _|]. intros tester _.
    apply respects_bind; [apply _|by apply traced_execute_tester|intros _].
    apply respects_bind; [apply _|apply respects_Simulator_running, _|intros running].
    destruct running; [|apply respects_ret, _].
    apply respects_bind; [apply _|apply respects_Simulator_name, _|intros name].
    apply respects_bind; [apply _|apply respects_Simulator_configuration, _|intros conf].
    apply respects_raise, _.
Qed.

(** One call of [execute_once] on a harness calls [execute_once] on its
    simulator exactly once, before anything else, and returns what that call
    returned; when that call raises, nothing else is called and the exception
    is raised as it is. *)
Theorem execute_once_advances_simulator_once self h :
  match execute_once self h with
  | Ok r _ tr =>
      ∃ tr', tr = CallExecuteOnce (_simulator self) r :: tr' ∧
             Forall (λ c, ∀ l r', c ≠ CallExecuteOnce l r') tr'
  | Raise err h' tr =>
      Simulator_execute_once (_simulator self) h = Raise err h' tr ∧ tr = [] ∨
      ∃ r tr', tr = CallExecuteOnce (_simulator self) r :: tr' ∧
               Forall (λ c, ∀ l r', c ≠ CallExecuteOnce l r') tr'
  | Stuck | OutOfFuel => True
  end.
Proof.
  unfold execute_once, bind at 1.
  destruct (Simulator_execute_once (_simulator self) h) as [step h1 tr1|err h1 tr1| |] eqn:Hsim;
    try done.
  - apply Simulator_execute_once_Ok in Hsim as ->.
    pose proof (respects_bind (traced (λ c, ∀ l r, c ≠ CallExecuteOnce l r)) _
                  (λ _, ret step) (relay_or_stop_never_advances self step)
                  (λ _, respects_ret _ step) h1) as Hrest.
    destruct (bind _ (λ _, ret step) h1) as [r h2 tr2|err h2 tr2| |] eqn:Hrun; simpl; try done.
    + apply bind_Ok_inv in Hrun as (? & ? & ? & ? & _ & [= <- _ _] & _). by exists tr2.
    + right. by exists step, tr2.
  - left. split; [done|]. by eapply Simulator_execute_once_Raise.
Qed.

(** Whatever [execute] does, it changes no simulator but those of the
    harness and no context but those of their evaluators, removes no object,
    and leaves the statechart and the evaluator of every simulator as they
    were. *)
Theorem execute_touches_only_its_harness fuel self max_steps h :
  match execute fuel self max_steps h with
  | Ok _ h' _ | Raise _ h' _ => touches_only (engine_locs self) h h'
  | Stuck | OutOfFuel => True
  end.
Proof. apply (respects_execute fuel self max_steps h). Qed.

End OneCall.
